(** * Local Food Wastage Management System: the data access layer, the
    query catalog and the menu of [app.py], over a model of the storage
    engine's tables.

    The program is a thin layer over fixed SQL text, so the embedding gives
    each statement the meaning the engine gives it: a table is the list of
    its rows in storage order, a [SELECT] is a function of the database, and
    an [INSERT], [UPDATE] or [DELETE] maps a database to the next one and
    the number of rows it changed. *)

From stdpp Require Import base numbers list strings pretty gmap sorting.

Local Open Scope Z_scope.

(** ** Values and errors *)

(** A cell of a result table.  The REAL that [ROUND(_, 2)] returns is kept
    as the exact fraction [num / den] of the decimal it stands for.  The
    REAL that [AVG] returns is a binary double near the quotient of the sum
    by the count; which double it is depends on how the engine adds up, so
    the cell keeps the integers averaged, in the order they were read, and
    no number is read off it. *)
Inductive value :=
  | VNull
  | VInt (z : Z)
  | VReal (num : Z) (den : positive)
  | VAverage (inputs : list Z)
  | VText (s : string).

(** The engine stores an INTEGER in 64 bits, two's complement. *)
Definition INT64_MIN : Z := - 2 ^ 63.
Definition INT64_MAX : Z := 2 ^ 63 - 1.
Definition in_int64 (z : Z) : Prop := INT64_MIN ≤ z ≤ INT64_MAX.

Global Instance in_int64_dec z : Decision (in_int64 z).
Proof. unfold in_int64. apply _. Defined.

Inductive error :=
  | OverflowError     (* a Python int too large to bind as an INTEGER *)
  | IntegerOverflow   (* the engine's "integer overflow" raised by SUM *)
  | KeyError          (* a label that is not a key of QUERIES *)
  | TypeError.        (* pd.read_sql on a statement without a result set *)

Inductive result (A : Type) :=
  | Ok (a : A)
  | Err (e : error).
Global Arguments Ok {A} a.
Global Arguments Err {A} e.

Global Instance result_ret : MRet result := λ A a, Ok a.
Global Instance result_bind : MBind result := λ A B f m,
  match m with Ok a => f a | Err e => Err e end.
Global Instance result_fmap : FMap result := λ A B f m,
  match m with Ok a => Ok (f a) | Err e => Err e end.

(** Binding a Python int to a [?] placeholder. *)
Definition bind_int (z : Z) : result Z :=
  if decide (in_int64 z) then Ok z else Err OverflowError.

(** ** The four tables *)

(** Modelled from the spec: the schema is not created by [app.py]; the
    columns are those of the storage file named in the spec's external
    interfaces, identifiers and quantities being integers and the other
    columns text, none of them NULL. *)
Module Provider.
Record row := mk {
  provider_id : Z;
  name : string;
  provider_type : string;
  city : string;
  contact : string }.
End Provider.

Module Receiver.
Record row := mk {
  receiver_id : Z;
  name : string;
  city : string }.
End Receiver.

Module FoodListing.
Record row := mk {
  food_id : Z;
  food_name : string;
  quantity : Z;
  expiry_date : string;
  provider_id : Z;
  provider_type : string;
  location : string;
  food_type : string;
  meal_type : string }.

Definition set_quantity (q : Z) (f : row) : row :=
  mk (food_id f) (food_name f) q (expiry_date f) (provider_id f)
     (provider_type f) (location f) (food_type f) (meal_type f).
End FoodListing.

Module Claim.
Record row := mk {
  claim_id : Z;
  food_id : Z;
  receiver_id : Z;
  status : string }.
End Claim.

Record database := Database {
  providers : list Provider.row;
  receivers : list Receiver.row;
  food_listings : list FoodListing.row;
  claims : list Claim.row }.

Definition with_food_listings (l : list FoodListing.row) (db : database)
  : database :=
  Database (providers db) (receivers db) l (claims db).

(** ** Relational operators used by the catalog *)

Section relational.
Context {A K : Type} `{EqDecision K}.

(** The rows of one group. *)
Definition group (key : A → K) (k : K) (rows : list A) : list A :=
  filter (λ r, key r = k) rows.

(** [GROUP BY key]: one group per distinct key. *)
Definition group_by (key : A → K) (rows : list A) : list (K * list A) :=
  (λ k, (k, group key k rows)) <$> remove_dups (key <$> rows).

(** [COUNT(DISTINCT col)]: NULLs are not counted. *)
Definition count_distinct (col : A → option K) (rows : list A) : Z :=
  Z.of_nat (length (remove_dups (omap col rows))).
End relational.

(** [COUNT(col)] and [COUNT( * )] over a column that holds no NULL. *)
Definition count {A} (rows : list A) : Z := Z.of_nat (length rows).

(** [SUM] over an integer column: NULL on no rows, and the engine's
    "integer overflow" as soon as a partial sum leaves 64 bits. *)
Fixpoint sum_from (acc : Z) (l : list Z) : result Z :=
  match l with
  | [] => Ok acc
  | x :: l' =>
      if decide (in_int64 (acc + x)) then sum_from (acc + x) l'
      else Err IntegerOverflow
  end.

Definition SUM (l : list Z) : result (option Z) :=
  match l with
  | [] => Ok None
  | _ => Some <$> sum_from 0 l
  end.

(** The exact sum, used to state what [SUM] computes. *)
Definition sum_of (l : list Z) : Z := foldr Z.add 0 l.

(** [AVG] over an integer column: NULL on no rows, and else the engine's
    double for the rows read. *)
Definition AVG (l : list Z) : value :=
  match l with
  | [] => VNull
  | _ => VAverage l
  end.

(** [ORDER BY col DESC] on an integer column, and [LIMIT 1]. *)
Definition desc {A} (col : A → Z) : relation A := λ a b, col b ≤ col a.

Global Instance desc_dec {A} (col : A → Z) a b : Decision (desc col a b).
Proof. unfold desc. apply _. Defined.

Definition order_by_desc {A} (col : A → Z) (rows : list A) : list A :=
  merge_sort (desc col) rows.

Definition limit_1 {A} (rows : list A) : list A := take 1 rows.

(** [ROUND(n * 100.0 / d, 2)] for [0 ≤ n] and [0 < d], counted in
    hundredths: the nearest hundredth of the exact quotient, a tie going
    up. *)
Definition round_percentage (n d : Z) : Z :=
  (2 * (n * 10000) + d) / (2 * d).

Definition hundredths (p : Z) : value := VReal p 100.

(** [mapM] for [result]: the first error wins. *)
Fixpoint collect {A B} (f : A → result B) (l : list A) : result (list B) :=
  match l with
  | [] => Ok []
  | x :: l' => y ← f x; ys ← collect f l'; Ok (y :: ys)
  end.

(** The engine orders NULL below every integer. *)
Definition null_le (a b : option Z) : Prop :=
  match a, b with
  | None, _ => True
  | Some _, None => False
  | Some x, Some y => x ≤ y
  end.

Definition desc_nullable {A} (col : A → option Z) : relation A :=
  λ a b, null_le (col b) (col a).

Global Instance desc_nullable_dec {A} (col : A → option Z) a b :
  Decision (desc_nullable col a b).
Proof.
  unfold desc_nullable, null_le. destruct (col b), (col a); apply _.
Defined.

Definition order_by_desc_nullable {A} (col : A → option Z) (rows : list A)
  : list A :=
  merge_sort (desc_nullable col) rows.

(** ** The query catalog, one function per SQL text

    A query without [ORDER BY] returns its groups in an order the engine
    chooses, and rows that tie in an [ORDER BY] come in an order the engine
    chooses; the functions below fix one such order (the groups in the
    order [remove_dups] lists their keys, ties as [merge_sort] leaves
    them), and no property below depends on it. *)

(** The inner [UNION ALL] of "Providers & Receivers per City":
    city, provider_id, receiver_id. *)
Definition combined (db : database) : list (string * option Z * option Z) :=
  ((λ p, (Provider.city p, Some (Provider.provider_id p), None))
     <$> providers db)
  ++ ((λ r, (Receiver.city r, None, Some (Receiver.receiver_id r)))
     <$> receivers db).

(** [SELECT city, COUNT(DISTINCT provider_id) AS total_providers,
            COUNT(DISTINCT receiver_id) AS total_receivers
     FROM (...) AS combined GROUP BY city] *)
Definition providers_receivers_per_city (db : database)
  : list (string * Z * Z) :=
  (λ '(c, g), (c, count_distinct (λ x, x.1.2) g, count_distinct (λ x, x.2) g))
    <$> group_by (λ x, x.1.1) (combined db).

(** [SELECT provider_type, SUM(quantity) AS total_quantity
     FROM food_listings GROUP BY provider_type
     ORDER BY total_quantity DESC LIMIT 1] *)
Definition sum_quantity {K} (kg : K * list FoodListing.row)
  : result (K * option Z) :=
  s ← SUM (FoodListing.quantity <$> kg.2); Ok (kg.1, s).

Definition provider_type_most_food (db : database)
  : result (list (string * option Z)) :=
  rows ← collect sum_quantity
           (group_by FoodListing.provider_type (food_listings db));
  Ok (limit_1 (order_by_desc_nullable snd rows)).

(** [SELECT name, contact FROM providers WHERE city = 'Mooreview'] *)
Definition contact_info (db : database) : list (string * string) :=
  (λ p, (Provider.name p, Provider.contact p))
    <$> filter (λ p, Provider.city p = "Mooreview") (providers db).

(** [claims c JOIN receivers r ON c.receiver_id = r.receiver_id] *)
Definition claims_receivers (db : database)
  : list (Claim.row * Receiver.row) :=
  c ← claims db;
  r ← filter (λ r, Claim.receiver_id c = Receiver.receiver_id r)
        (receivers db);
  [(c, r)].

Definition count_rows {K A} (kg : K * list A) : K * Z := (kg.1, count kg.2).

(** [SELECT r.name, COUNT(c.claim_id) AS total_claims FROM claims c JOIN ...
     GROUP BY r.name ORDER BY total_claims DESC] *)
Definition receivers_most_claims (db : database) : list (string * Z) :=
  order_by_desc snd
    (count_rows <$> group_by (λ cr, Receiver.name cr.2) (claims_receivers db)).

(** [SELECT SUM(quantity) AS total_available_food FROM food_listings] *)
Definition total_quantity (db : database) : result (option Z) :=
  SUM (FoodListing.quantity <$> food_listings db).

(** [SELECT location, COUNT(food_id) AS total_listings FROM food_listings
     GROUP BY location ORDER BY total_listings DESC LIMIT 1] *)
Definition city_most_listings (db : database) : list (string * Z) :=
  limit_1 (order_by_desc snd
    (count_rows <$> group_by FoodListing.location (food_listings db))).

(** [SELECT food_type, COUNT(food_id) AS count FROM food_listings
     GROUP BY food_type ORDER BY count DESC] *)
Definition most_common_food_types (db : database) : list (string * Z) :=
  order_by_desc snd
    (count_rows <$> group_by FoodListing.food_type (food_listings db)).

(** [SELECT food_id, COUNT(claim_id) AS total_claims FROM claims
     GROUP BY food_id] *)
Definition claims_per_food_item (db : database) : list (Z * Z) :=
  count_rows <$> group_by Claim.food_id (claims db).

(** [claims c JOIN food_listings f ON c.food_id = f.food_id] *)
Definition claims_listings (db : database)
  : list (Claim.row * FoodListing.row) :=
  c ← claims db;
  f ← filter (λ f, Claim.food_id c = FoodListing.food_id f)
        (food_listings db);
  [(c, f)].

(** [... JOIN providers p ON f.provider_id = p.provider_id
     WHERE c.status = 'Completed'] *)
Definition completed_claims (db : database)
  : list (Claim.row * FoodListing.row * Provider.row) :=
  filter (λ cfp, Claim.status cfp.1.1 = "Completed")
    (cf ← claims_listings db;
     p ← filter (λ p, FoodListing.provider_id cf.2 = Provider.provider_id p)
           (providers db);
     [(cf, p)]).

(** [SELECT p.name, COUNT(c.claim_id) AS completed_claims FROM ...
     GROUP BY p.name ORDER BY completed_claims DESC LIMIT 1] *)
Definition provider_most_completed_claims (db : database)
  : list (string * Z) :=
  limit_1 (order_by_desc snd
    (count_rows <$> group_by (λ cfp, Provider.name cfp.2)
                      (completed_claims db))).

(** [SELECT status,
       ROUND(COUNT( * ) * 100.0 / (SELECT COUNT( * ) FROM claims), 2)
         AS percentage
     FROM claims GROUP BY status], the percentage in hundredths. *)
Definition claim_percentages (db : database) : list (string * Z) :=
  (λ '(s, g), (s, round_percentage (count g) (count (claims db))))
    <$> group_by Claim.status (claims db).

(** [claims c JOIN receivers r ... JOIN food_listings f ...] *)
Definition claims_receivers_listings (db : database)
  : list (Claim.row * Receiver.row * FoodListing.row) :=
  cr ← claims_receivers db;
  f ← filter (λ f, Claim.food_id cr.1 = FoodListing.food_id f)
        (food_listings db);
  [(cr, f)].

(** [SELECT r.name, AVG(f.quantity) AS avg_claim_quantity FROM ...
     GROUP BY r.name] *)
Definition avg_claim_quantity (db : database) : list (string * value) :=
  (λ '(n, g), (n, AVG ((λ crf, FoodListing.quantity crf.2) <$> g)))
    <$> group_by (λ crf, Receiver.name crf.1.2)
          (claims_receivers_listings db).

(** [SELECT meal_type, COUNT(c.claim_id) AS total_claims FROM ...
     GROUP BY meal_type ORDER BY total_claims DESC LIMIT 1] *)
Definition most_claimed_meal_type (db : database) : list (string * Z) :=
  limit_1 (order_by_desc snd
    (count_rows <$> group_by (λ cf, FoodListing.meal_type cf.2)
                      (claims_listings db))).

(** [food_listings f JOIN providers p ON f.provider_id = p.provider_id] *)
Definition listings_providers (db : database)
  : list (FoodListing.row * Provider.row) :=
  f ← food_listings db;
  p ← filter (λ p, FoodListing.provider_id f = Provider.provider_id p)
        (providers db);
  [(f, p)].

(** [SELECT p.name, SUM(f.quantity) AS total_donated FROM ...
     GROUP BY p.name ORDER BY total_donated DESC] *)
Definition sum_donated (kg : string * list (FoodListing.row * Provider.row))
  : result (string * option Z) :=
  s ← SUM ((λ fp, FoodListing.quantity fp.1) <$> kg.2); Ok (kg.1, s).

Definition total_donated (db : database)
  : result (list (string * option Z)) :=
  rows ← collect sum_donated
           (group_by (λ fp, Provider.name fp.2) (listings_providers db));
  Ok (order_by_desc_nullable snd rows).

(** ** The write statements *)

(** The three write statements with their bound parameters, in the order
    of the [?] placeholders. *)
Inductive statement :=
  | INSERT_INTO_food_listings
      (food_name : string) (quantity : Z) (expiry_date : string)
      (provider_id : Z) (provider_type location food_type meal_type : string)
  | UPDATE_food_listings_SET_quantity (quantity food_id : Z)
  | DELETE_FROM_food_listings (food_id : Z).

(** Modelled from the spec: the insert names no [food_id], and the listing
    appears with a fresh one; for the engine's integer key that is one more
    than the largest stored, and 1 in an empty table. *)
Definition fresh_food_id (l : list FoodListing.row) : Z :=
  match FoodListing.food_id <$> l with
  | [] => 1
  | i :: ids => 1 + foldr Z.max i ids
  end.

Definition matches (i : Z) (f : FoodListing.row) : Prop :=
  FoodListing.food_id f = i.

Global Instance matches_dec i f : Decision (matches i f).
Proof. unfold matches. apply _. Defined.

(** [cur.execute(sql, params)]: [cur.rowcount], the number of rows the
    statement changed, and the database after it. *)
Definition cursor_execute (s : statement) (db : database)
  : result (nat * database) :=
  let l := food_listings db in
  match s with
  | INSERT_INTO_food_listings n q e p pt loc ft mt =>
      q' ← bind_int q; p' ← bind_int p;
      Ok (1%nat, with_food_listings
            (l ++ [FoodListing.mk (fresh_food_id l) n q' e p' pt loc ft mt])
            db)
  | UPDATE_food_listings_SET_quantity q i =>
      q' ← bind_int q; i' ← bind_int i;
      Ok (length (filter (matches i') l),
          with_food_listings
            ((λ f, if decide (matches i' f)
                   then FoodListing.set_quantity q' f else f) <$> l)
            db)
  | DELETE_FROM_food_listings i =>
      i' ← bind_int i;
      Ok (length (filter (matches i') l),
          with_food_listings (filter (λ f, ¬ matches i' f) l) db)
  end.

(** ** Result tables *)

(** What [pd.read_sql] returns: the column names of the result set and its
    rows. *)
Record DataFrame := Frame {
  columns : list string;
  data : list (list value) }.

Definition nullable (o : option Z) : value :=
  match o with Some z => VInt z | None => VNull end.

Definition text_int (r : string * Z) : list value := [VText r.1; VInt r.2].
Definition text_nullable (r : string * option Z) : list value :=
  [VText r.1; nullable r.2].

(** What a [SELECT] statement computes: its result on a database, or the
    engine's error. *)
Definition query := database → result DataFrame.

(** A SQL text as it is handed to the engine: a [SELECT], or one of the
    write statements with its values. *)
Inductive sql :=
  | SELECT (q : query)
  | WRITE (s : statement).

Definition QUERIES : list (string * sql) := [
  ("Providers & Receivers per City",
    SELECT (λ db, Ok (Frame ["city"; "total_providers"; "total_receivers"]
      ((λ r, [VText r.1.1; VInt r.1.2; VInt r.2])
         <$> providers_receivers_per_city db))));
  ("Provider type contributing most food",
    SELECT (λ db, rows ← provider_type_most_food db;
      Ok (Frame ["provider_type"; "total_quantity"] (text_nullable <$> rows))));
  ("Contact info of providers in a specific city ",
    SELECT (λ db, Ok (Frame ["name"; "contact"]
      ((λ r, [VText r.1; VText r.2]) <$> contact_info db))));
  ("Receivers with most food claims",
    SELECT (λ db, Ok (Frame ["name"; "total_claims"]
      (text_int <$> receivers_most_claims db))));
  ("Total quantity of food available",
    SELECT (λ db, s ← total_quantity db;
      Ok (Frame ["total_available_food"] [[nullable s]])));
  ("City with highest number of food listings",
    SELECT (λ db, Ok (Frame ["location"; "total_listings"]
      (text_int <$> city_most_listings db))));
  ("Most commonly available food types",
    SELECT (λ db, Ok (Frame ["food_type"; "count"]
      (text_int <$> most_common_food_types db))));
  ("Number of claims made for each food item",
    SELECT (λ db, Ok (Frame ["food_id"; "total_claims"]
      ((λ r, [VInt r.1; VInt r.2]) <$> claims_per_food_item db))));
  ("Provider with highest number of successful food claims",
    SELECT (λ db, Ok (Frame ["name"; "completed_claims"]
      (text_int <$> provider_most_completed_claims db))));
  ("Percentage of food claims completed vs pending vs canceled",
    SELECT (λ db, Ok (Frame ["status"; "percentage"]
      ((λ r, [VText r.1; hundredths r.2]) <$> claim_percentages db))));
  ("Average quantity of food claimed per receiver",
    SELECT (λ db, Ok (Frame ["name"; "avg_claim_quantity"]
      ((λ r, [VText r.1; r.2]) <$> avg_claim_quantity db))));
  ("Most claimed meal type",
    SELECT (λ db, Ok (Frame ["meal_type"; "total_claims"]
      (text_int <$> most_claimed_meal_type db))));
  ("Total quantity of food donated by each provider",
    SELECT (λ db, rows ← total_donated db;
      Ok (Frame ["name"; "total_donated"] (text_nullable <$> rows))))
]%string.

(** [QUERIES[label]] *)
Fixpoint getitem (label : string) (d : list (string * sql))
  : result sql :=
  match d with
  | [] => Err KeyError
  | (k, q) :: d' => if decide (k = label) then Ok q else getitem label d'
  end.

(** ** The data access layer *)

(** A computation on the database file: the value it returns or the
    exception it raises, and the database it leaves. *)
Definition M (A : Type) : Type := database → result A * database.

Definition ret {A} (a : A) : M A := λ db, (Ok a, db).

Definition bind {A B} (m : M A) (k : A → M B) : M B :=
  λ db, match m db with
        | (Ok a, db') => k a db'
        | (Err e, db') => (Err e, db')
        end.

Definition lift {A} (r : result A) : M A := λ db, (r, db).

Notation "'let*' x := m 'in' k" := (bind m (λ x, k))
  (at level 10, x name, m at level 100, k at level 200).

(** An open connection: the database file it was opened on, and the
    database as the connection sees it, which is the file's until a
    statement of the connection changes it. *)
Record connection := Connection {
  file : database;
  view : database }.

Definition get_connection (db : database) : connection := Connection db db.

(** [conn.commit()] writes what the connection sees to the file;
    [conn.close()] leaves on file what was committed. *)
Definition commit (conn : connection) : connection :=
  Connection (view conn) (view conn).

Definition close (conn : connection) : database := file conn.

(** [pd.read_sql(sql, conn)]: the statement is executed on the connection
    and its result set becomes the table; a statement that has no result
    set makes pandas raise TypeError. *)
Definition read_sql (s : sql) (conn : connection)
  : result DataFrame * connection :=
  match s with
  | SELECT q => (q (view conn), conn)
  | WRITE w =>
      match cursor_execute w (view conn) with
      | Ok (_, v) => (Err TypeError, Connection (file conn) v)
      | Err e => (Err e, conn)
      end
  end.

(** Each call opens its own connection and closes it; nothing but the
    database file lives from one call to the next, and [run_query] commits
    nothing. *)
Definition run_query (query : sql) : M DataFrame :=
  λ db,
  let conn := get_connection db in
  let r := read_sql query conn in
  (r.1, close r.2).

(** The row count is dropped and the change committed; a statement that
    raises commits nothing. *)
Definition execute_sql (s : statement) : M unit :=
  λ db, match cursor_execute s db with
        | Ok (_, db') => (Ok (), db')
        | Err e => (Err e, db)
        end.

Definition add_food_listing
    (food_name : string) (quantity : Z) (expiry_date : string)
    (provider_id : Z) (provider_type location food_type meal_type : string)
  : M unit :=
  execute_sql (INSERT_INTO_food_listings food_name quantity expiry_date
                 provider_id provider_type location food_type meal_type).

Definition update_food_listing_quantity (food_id quantity : Z) : M unit :=
  execute_sql (UPDATE_food_listings_SET_quantity quantity food_id).

Definition delete_food_listing (food_id : Z) : M unit :=
  execute_sql (DELETE_FROM_food_listings food_id).

(** [run_query(QUERIES[label])], as the analytics page calls it. *)
Definition run_catalog_query (label : string) : M DataFrame :=
  let* q := lift (getitem label QUERIES) in run_query q.

(** ** The menu *)

(** What one run of the script renders. *)
Inductive element :=
  | title (s : string)
  | subheader (s : string)
  | dataframe (df : DataFrame)
  | success (s : string).

(** The sidebar choice with the values of that page's widgets and whether
    its button was pressed.  The number inputs hand over integers from 1
    upwards; [main] itself does not look at the values. *)
Inductive page :=
  | View_Analytics (query_name : string) (pressed : bool)
  | Add_Food_Listing
      (food_name : string) (quantity : Z) (expiry_date : string)
      (provider_id : Z) (provider_type location food_type meal_type : string)
      (pressed : bool)
  | Update_Food_Listing (food_id quantity : Z) (pressed : bool)
  | Delete_Food_Listing (food_id : Z) (pressed : bool).

Definition banner : element :=
  title "🍽 Local Food Wastage Management System".

(** One run of [main]: the elements rendered before an exception stops the
    script are not kept. *)
Definition main (p : page) : M (list element) :=
  match p with
  | View_Analytics query_name pressed =>
      let out := [banner; subheader "Analytics Queries"] in
      if pressed then
        let* df := run_catalog_query query_name in
        ret (out ++ [dataframe df])
      else ret out
  | Add_Food_Listing n q e p pt loc ft mt pressed =>
      let out := [banner; subheader "Add New Food Listing"] in
      if pressed then
        let* _ := add_food_listing n q e p pt loc ft mt in
        ret (out ++ [success "Food listing added successfully!"])
      else ret out
  | Update_Food_Listing i q pressed =>
      let out := [banner; subheader "Update Food Listing Quantity"] in
      if pressed then
        let* _ := update_food_listing_quantity i q in
        ret (out ++ [success "Food listing quantity updated successfully!"])
      else ret out
  | Delete_Food_Listing i pressed =>
      let out := [banner; subheader "Delete Food Listing"] in
      if pressed then
        let* _ := delete_food_listing i in
        ret (out ++ [success "Food listing deleted successfully!"])
      else ret out
  end.

(** The identifiers stored in [food_listings]. *)
Definition food_ids (db : database) : list Z :=
  FoodListing.food_id <$> food_listings db.

(** ** What a "most" query is to return *)

(** [out] is the top of the groups of [rows] by [key], each group weighed
    by [weight]: no row when there is no group, and else the one row of a
    group that no group outweighs. *)
Definition top_group {A K} `{EqDecision K} (key : A → K)
    (weight : list A → Z) (rows : list A) (out : list (K * Z)) : Prop :=
  (rows = [] ∧ out = [])
  ∨ ∃ k, out = [(k, weight (group key k rows))]
         ∧ (∃ r, r ∈ rows ∧ key r = k)
         ∧ ∀ k', (∃ r, r ∈ rows ∧ key r = k') →
                 weight (group key k' rows) ≤ weight (group key k rows).

(** ** A small database *)

Definition empty_database : database := Database [] [] [] [].

Definition sample_database : database := {|
  providers := [
    Provider.mk 1 "Green Cafe" "Restaurant" "Mooreview" "555-0101";
    Provider.mk 2 "Daily Mart" "Supermarket" "Lakeside" "555-0102" ];
  receivers := [
    Receiver.mk 1 "Hope Shelter" "Mooreview";
    Receiver.mk 2 "Food Bank" "Hillview" ];
  food_listings := [
    FoodListing.mk 1 "Rice" 10 "2025-01-01" 1 "Restaurant" "Mooreview"
      "Vegetarian" "Lunch";
    FoodListing.mk 2 "Bread" 4 "2025-01-02" 2 "Supermarket" "Lakeside"
      "Vegan" "Breakfast";
    FoodListing.mk 3 "Soup" 7 "2025-01-03" 1 "Restaurant" "Mooreview"
      "Vegetarian" "Dinner" ];
  claims := [
    Claim.mk 1 1 1 "Completed";
    Claim.mk 2 1 2 "Pending";
    Claim.mk 3 2 2 "Completed" ] |}.

(** The sample database before any claim is made. *)
Definition unclaimed_database : database :=
  Database (providers sample_database) (receivers sample_database)
    (food_listings sample_database) [].

(** Sixty claims, each with a status of its own: "1", "2", ..., "60". *)
Definition sixty_statuses_database : database :=
  Database [] [] []
    ((λ n : nat, Claim.mk (Z.of_nat n) 1 1 (pretty n)) <$> seq 1 60).

(** One listing whose quantity is the largest integer the engine holds. *)
Definition brimful_database : database :=
  Database [] []
    [FoodListing.mk 1 "Rice" INT64_MAX "2025-01-01" 1 "Restaurant"
       "Downtown" "Vegetarian" "Lunch"] [].

(** * Properties *)

(** ** The catalog on the sample database *)

Example per_city_sample :
  providers_receivers_per_city sample_database
    = [("Lakeside", 1, 0); ("Mooreview", 1, 1); ("Hillview", 0, 1)].
Proof. reflexivity. Qed.

Example food_types_sample :
  most_common_food_types sample_database = [("Vegetarian", 2); ("Vegan", 1)].
Proof. reflexivity. Qed.

Example percentages_sample :
  claim_percentages sample_database = [("Pending", 3333); ("Completed", 6667)].
Proof. reflexivity. Qed.

Example most_food_sample :
  provider_type_most_food sample_database = Ok [("Restaurant", Some 17)].
Proof. reflexivity. Qed.

Example avg_sample :
  avg_claim_quantity sample_database
    = [("Hope Shelter", VAverage [10]); ("Food Bank", VAverage [10; 4])].
Proof. reflexivity. Qed.

Example delete_sample :
  (main (Delete_Food_Listing 2 true) sample_database).1
    = Ok [banner; subheader "Delete Food Listing";
          success "Food listing deleted successfully!"]
  ∧ food_ids (main (Delete_Food_Listing 2 true) sample_database).2 = [1; 3].
Proof. split; reflexivity. Qed.

Example unknown_label_sample :
  run_catalog_query "Most claimed meal" sample_database
    = (Err KeyError, sample_database).
Proof. reflexivity. Qed.

(** ** Writes *)

Section writes.
Implicit Types (db : database) (l : list FoodListing.row) (i q : Z).

Lemma bind_int_ok z : in_int64 z → bind_int z = Ok z.
Proof. intros H. unfold bind_int. by rewrite decide_True. Qed.

Lemma with_food_listings_same db : with_food_listings (food_listings db) db = db.
Proof. by destruct db. Qed.

Lemma filter_matches_absent i l :
  i ∉ FoodListing.food_id <$> l → filter (matches i) l = [].
Proof.
  induction l as [|f l IH]; [done|]. rewrite fmap_cons, not_elem_of_cons.
  intros [Hne Hl]. rewrite filter_cons_False; [auto|].
  unfold matches. congruence.
Qed.

Lemma filter_not_matches_absent i l :
  i ∉ FoodListing.food_id <$> l → filter (λ f, ¬ matches i f) l = l.
Proof.
  induction l as [|f l IH]; [done|]. rewrite fmap_cons, not_elem_of_cons.
  intros [Hne Hl]. rewrite filter_cons_True; [by rewrite IH|].
  unfold matches. congruence.
Qed.

Lemma update_rows_absent i q l :
  i ∉ FoodListing.food_id <$> l →
  (λ f, if decide (matches i f) then FoodListing.set_quantity q f else f)
    <$> l = l.
Proof.
  induction l as [|f l IH]; [done|]. rewrite !fmap_cons, not_elem_of_cons.
  intros [Hne Hl]. rewrite IH by done. rewrite decide_False; [done|].
  unfold matches. congruence.
Qed.

Lemma update_rows_twice i q l :
  let upd := λ f, if decide (matches i f)
                  then FoodListing.set_quantity q f else f in
  upd <$> (upd <$> l) = upd <$> l.
Proof.
  intros upd. rewrite <-list_fmap_compose. apply list_fmap_ext.
  intros _ f _. unfold upd; simpl. destruct (decide (matches i f)) as [Hm|Hm].
  - by rewrite decide_True.
  - by rewrite decide_False.
Qed.

Lemma delete_rows_absent i l :
  i ∉ FoodListing.food_id <$> filter (λ f, ¬ matches i f) l.
Proof.
  rewrite list_elem_of_fmap. intros (f & -> & Hf).
  apply list_elem_of_filter in Hf as [Hf _]. by apply Hf.
Qed.

Lemma update_ok db i q :
  in_int64 i → in_int64 q →
  update_food_listing_quantity i q db =
    (Ok (),
     with_food_listings
       ((λ f, if decide (matches i f)
              then FoodListing.set_quantity q f else f)
          <$> food_listings db) db).
Proof.
  intros Hi Hq. unfold update_food_listing_quantity, execute_sql.
  simpl. by rewrite !bind_int_ok.
Qed.

Lemma delete_ok db i :
  in_int64 i →
  delete_food_listing i db =
    (Ok (),
     with_food_listings
       (filter (λ f, ¬ matches i f) (food_listings db)) db).
Proof.
  intros Hi. unfold delete_food_listing, execute_sql.
  simpl. by rewrite !bind_int_ok.
Qed.
Lemma update_absent db i q :
in_int64 i → in_int64 q → i ∉ food_ids db →
cursor_execute (UPDATE_food_listings_SET_quantity q i) db = Ok (0%nat, db)
∧ update_food_listing_quantity i q db = (Ok (), db).
Proof.
intros Hi Hq Habs. unfold food_ids in Habs.
rewrite update_ok by done. simpl. rewrite !bind_int_ok by done. simpl.
rewrite filter_matches_absent, update_rows_absent by done.
by rewrite with_food_listings_same.
Qed.

Lemma delete_absent db i :
in_int64 i → i ∉ food_ids db →
cursor_execute (DELETE_FROM_food_listings i) db = Ok (0%nat, db)
∧ delete_food_listing i db = (Ok (), db).
Proof.
intros Hi Habs. unfold food_ids in Habs.
rewrite delete_ok by done. simpl. rewrite !bind_int_ok by done. simpl.
rewrite filter_matches_absent, filter_not_matches_absent by done.
by rewrite with_food_listings_same.
Qed.
End writes.

(** C3: for an identifier that no listing carries, the update and the
    delete both return normally, their statements change zero rows, and the
    database is left exactly as it was.  The identifier and the quantity
    are values the engine can hold, 64-bit integers. *)
Theorem absent_id_is_silent_no_op (db : database) (foodId q : Z) :
  in_int64 foodId → in_int64 q → foodId ∉ food_ids db →
  cursor_execute (UPDATE_food_listings_SET_quantity q foodId) db
    = Ok (0%nat, db)
  ∧ update_food_listing_quantity foodId q db = (Ok (), db)
  ∧ cursor_execute (DELETE_FROM_food_listings foodId) db = Ok (0%nat, db)
  ∧ delete_food_listing foodId db = (Ok (), db).
Proof.
  intros Hi Hq Habs.
  destruct (update_absent db foodId q) as [-> ->]; [done..|].
  by destruct (delete_absent db foodId) as [-> ->].
Qed.

Lemma absent_id_is_silent_no_op_witness :
  cursor_execute (UPDATE_food_listings_SET_quantity 5 9) sample_database
    = Ok (0%nat, sample_database)
  ∧ update_food_listing_quantity 9 5 sample_database
    = (Ok (), sample_database)
  ∧ cursor_execute (DELETE_FROM_food_listings 9) sample_database
    = Ok (0%nat, sample_database)
  ∧ delete_food_listing 9 sample_database = (Ok (), sample_database).
Proof.
  apply (absent_id_is_silent_no_op sample_database 9 5).
  - unfold in_int64, INT64_MIN, INT64_MAX. lia.
  - unfold in_int64, INT64_MIN, INT64_MAX. lia.
  - compute_done.
Defined.

(** What the update page shows once its button has been pressed and the
    update has returned. *)
Lemma main_update_shows (db : database) (i q : Z) :
  main (Update_Food_Listing i q true) db =
    match update_food_listing_quantity i q db with
    | (Ok _, db') =>
        (Ok [banner; subheader "Update Food Listing Quantity";
             success "Food listing quantity updated successfully!"], db')
    | (Err e, db') => (Err e, db')
    end.
Proof.
  unfold main, bind, ret.
  by destruct (update_food_listing_quantity i q db) as [[[]|e] db'].
Qed.

(** C2: on a listing that exists, a second update to the same quantity
    returns as the first did and leaves the database of the first; the
    listing is still there with quantity [q], and the page shows the same
    success message both times.  [X] and [q] are INTEGER values, that is
    64-bit integers. *)
Theorem update_twice_same_as_once (db : database) (X q : Z) :
  in_int64 X → in_int64 q → X ∈ food_ids db →
  ∃ db1,
    update_food_listing_quantity X q db = (Ok (), db1)
    ∧ update_food_listing_quantity X q db1 = (Ok (), db1)
    ∧ X ∈ food_ids db1
    ∧ (∀ f, f ∈ food_listings db1 →
            FoodListing.food_id f = X → FoodListing.quantity f = q)
    ∧ ∃ shown,
        success "Food listing quantity updated successfully!" ∈ shown
        ∧ main (Update_Food_Listing X q true) db = (Ok shown, db1)
        ∧ main (Update_Food_Listing X q true) db1 = (Ok shown, db1).
Proof.
  intros HX Hq Hin. eexists. split; [by apply update_ok|].
  assert (Hagain : ∀ l, update_food_listing_quantity X q
            (with_food_listings
               ((λ f, if decide (matches X f)
                      then FoodListing.set_quantity q f else f) <$> l) db)
          = (Ok (), with_food_listings
               ((λ f, if decide (matches X f)
                      then FoodListing.set_quantity q f else f) <$> l) db)).
  { intros l. rewrite update_ok by done. simpl.
    by rewrite (update_rows_twice X q l). }
  split; [apply Hagain|]. split; [|split].
  - unfold food_ids in *. simpl. rewrite <-list_fmap_compose.
    apply list_elem_of_fmap in Hin as (f & -> & Hf).
    apply list_elem_of_fmap. exists f. split; [|done]. simpl.
    by destruct (decide (matches (FoodListing.food_id f) f)).
  - simpl. intros f Hf Hid. apply list_elem_of_fmap in Hf as (g & -> & Hg).
    destruct (decide (matches X g)) as [|Hn]; [done|].
    by destruct Hn.
  - eexists. split; [|split].
    2: { rewrite main_update_shows, update_ok by done. reflexivity. }
    + repeat constructor.
    + by rewrite main_update_shows, Hagain.
Qed.

Lemma update_twice_same_as_once_witness :
  ∃ db1,
    update_food_listing_quantity 2 6 sample_database = (Ok (), db1)
    ∧ update_food_listing_quantity 2 6 db1 = (Ok (), db1)
    ∧ 2 ∈ food_ids db1
    ∧ (∀ f, f ∈ food_listings db1 →
            FoodListing.food_id f = 2 → FoodListing.quantity f = 6)
    ∧ ∃ shown,
        success "Food listing quantity updated successfully!" ∈ shown
        ∧ main (Update_Food_Listing 2 6 true) sample_database
          = (Ok shown, db1)
        ∧ main (Update_Food_Listing 2 6 true) db1 = (Ok shown, db1).
Proof.
  apply (update_twice_same_as_once sample_database 2 6); compute_done.
Defined.

(** C9: the update leaves the providers, receivers and claims tables as
    they were, keeps every listing at its place, leaves a listing with
    another identifier untouched, and in a listing with identifier [X]
    changes the quantity and no other field.  [X] and [q] are INTEGER
    values, that is 64-bit integers. *)
Theorem update_changes_only_quantity (db : database) (X q : Z) :
  in_int64 X → in_int64 q → X ∈ food_ids db →
  ∃ db',
    update_food_listing_quantity X q db = (Ok (), db')
    ∧ providers db' = providers db
    ∧ receivers db' = receivers db
    ∧ claims db' = claims db
    ∧ length (food_listings db') = length (food_listings db)
    ∧ ∀ (n : nat) f f',
        food_listings db !! n = Some f →
        food_listings db' !! n = Some f' →
        (FoodListing.food_id f ≠ X → f' = f)
        ∧ (FoodListing.food_id f = X → FoodListing.quantity f' = q)
        ∧ FoodListing.food_id f' = FoodListing.food_id f
        ∧ FoodListing.food_name f' = FoodListing.food_name f
        ∧ FoodListing.expiry_date f' = FoodListing.expiry_date f
        ∧ FoodListing.provider_id f' = FoodListing.provider_id f
        ∧ FoodListing.provider_type f' = FoodListing.provider_type f
        ∧ FoodListing.location f' = FoodListing.location f
        ∧ FoodListing.food_type f' = FoodListing.food_type f
        ∧ FoodListing.meal_type f' = FoodListing.meal_type f.
Proof.
  intros HX Hq _. eexists. split; [by apply update_ok|]. simpl.
  do 3 (split; [done|]). split; [by rewrite length_fmap|].
  intros n f f' Hf Hf'. rewrite list_lookup_fmap, Hf in Hf'. simpl in Hf'.
  injection Hf' as <-. unfold matches.
  destruct (decide (FoodListing.food_id f = X)); simpl; tauto.
Qed.

Lemma update_changes_only_quantity_witness :
  ∃ db',
    update_food_listing_quantity 2 6 sample_database = (Ok (), db')
    ∧ providers db' = providers sample_database
    ∧ receivers db' = receivers sample_database
    ∧ claims db' = claims sample_database
    ∧ length (food_listings db') = length (food_listings sample_database)
    ∧ ∀ (n : nat) f f',
        food_listings sample_database !! n = Some f →
        food_listings db' !! n = Some f' →
        (FoodListing.food_id f ≠ 2 → f' = f)
        ∧ (FoodListing.food_id f = 2 → FoodListing.quantity f' = 6)
        ∧ FoodListing.food_id f' = FoodListing.food_id f
        ∧ FoodListing.food_name f' = FoodListing.food_name f
        ∧ FoodListing.expiry_date f' = FoodListing.expiry_date f
        ∧ FoodListing.provider_id f' = FoodListing.provider_id f
        ∧ FoodListing.provider_type f' = FoodListing.provider_type f
        ∧ FoodListing.location f' = FoodListing.location f
        ∧ FoodListing.food_type f' = FoodListing.food_type f
        ∧ FoodListing.meal_type f' = FoodListing.meal_type f.
Proof.
  apply (update_changes_only_quantity sample_database 2 6); compute_done.
Defined.

(** C4, as the code has it: after the listing [X] is deleted, an update of
    [X] changes zero rows and leaves [X] absent; the update returns, and
    the page reports, exactly what they return and report on any other
    database, one that holds [X] included.  [X] and [q] are INTEGER values,
    that is 64-bit integers. *)
Theorem delete_then_update_stays_absent (db : database) (X q : Z) :
  in_int64 X → in_int64 q →
  ∃ db1,
    delete_food_listing X db = (Ok (), db1)
    ∧ (X ∉ food_ids db1)
    ∧ cursor_execute (UPDATE_food_listings_SET_quantity q X) db1
      = Ok (0%nat, db1)
    ∧ update_food_listing_quantity X q db1 = (Ok (), db1)
    ∧ ∀ db',
        (update_food_listing_quantity X q db1).1
          = (update_food_listing_quantity X q db').1
        ∧ (main (Update_Food_Listing X q true) db1).1
          = (main (Update_Food_Listing X q true) db').1.
Proof.
  intros HX Hq. eexists. split; [by apply delete_ok|].
  assert (Habs : X ∉ food_ids (with_food_listings
            (filter (λ f, ¬ matches X f) (food_listings db)) db))
    by apply delete_rows_absent.
  split; [done|].
  destruct (update_absent _ X q HX Hq Habs) as [Hc Hu].
  split; [done|]. split; [done|]. intros db'.
  rewrite !main_update_shows, !update_ok by done. done.
Qed.

Lemma delete_then_update_stays_absent_witness :
  ∃ db1,
    delete_food_listing 1 sample_database = (Ok (), db1)
    ∧ (1 ∉ food_ids db1)
    ∧ cursor_execute (UPDATE_food_listings_SET_quantity 5 1) db1
      = Ok (0%nat, db1)
    ∧ update_food_listing_quantity 1 5 db1 = (Ok (), db1)
    ∧ ∀ db',
        (update_food_listing_quantity 1 5 db1).1
          = (update_food_listing_quantity 1 5 db').1
        ∧ (main (Update_Food_Listing 1 5 true) db1).1
          = (main (Update_Food_Listing 1 5 true) db').1.
Proof.
  apply (delete_then_update_stays_absent sample_database 1 5); compute_done.
Defined.

(** C4 as stated fails: listing 1 of the sample database is deleted, and
    the update of listing 1 that follows changes nothing, yet it returns
    and shows the very same thing as the update that does change
    listing 1. *)
Lemma delete_then_update_looks_successful :
  let db1 := (delete_food_listing 1 sample_database).2 in
  1 ∈ food_ids sample_database
  ∧ (1 ∉ food_ids db1)
  ∧ (update_food_listing_quantity 1 5 db1).2 = db1
  ∧ (update_food_listing_quantity 1 5 sample_database).2 ≠ sample_database
  ∧ (update_food_listing_quantity 1 5 db1).1
    = (update_food_listing_quantity 1 5 sample_database).1
  ∧ (main (Update_Food_Listing 1 5 true) db1).1
    = (main (Update_Food_Listing 1 5 true) sample_database).1.
Proof.
  repeat split; try compute_done.
  vm_compute. discriminate.
Qed.

(** ** The total quantity *)

Lemma total_query_runs (db : database) :
  run_catalog_query "Total quantity of food available" db =
    (s ← total_quantity db;
     Ok (Frame ["total_available_food"] [[nullable s]]), db).
Proof. reflexivity. Qed.

Lemma sum_of_cons (x : Z) (l : list Z) : sum_of (x :: l) = x + sum_of l.
Proof. reflexivity. Qed.

Lemma sum_from_snoc (acc x : Z) (l : list Z) :
  sum_from acc (l ++ [x]) =
    (t ← sum_from acc l;
     if decide (in_int64 (t + x)) then Ok (t + x) else Err IntegerOverflow).
Proof.
  revert acc. induction l as [|y l IH]; intros acc; simpl.
  - by destruct (decide (in_int64 (acc + x))).
  - destruct (decide (in_int64 (acc + y))); [apply IH|done].
Qed.

Lemma SUM_snoc (x : Z) (l : list Z) :
  SUM (l ++ [x]) =
    (s ← SUM l;
     let t := default 0 s in
     if decide (in_int64 (t + x)) then Ok (Some (t + x))
     else Err IntegerOverflow).
Proof.
  unfold SUM. destruct l as [|y l].
  - simpl. by destruct (decide (in_int64 (0 + x))).
  - change ((y :: l) ++ [x]) with (y :: (l ++ [x])) at 1.
    change (y :: (l ++ [x])) with ((y :: l) ++ [x]).
    rewrite sum_from_snoc.
    destruct (sum_from 0 (y :: l)) as [t|e]; simpl; [|done].
    by destruct (decide (in_int64 (t + x))).
Qed.

Lemma total_quantity_after_add (db : database) n q e p pt loc ft mt :
  in_int64 q → in_int64 p →
  ∃ db',
    add_food_listing n q e p pt loc ft mt db = (Ok (), db')
    ∧ total_quantity db' =
        (s ← total_quantity db;
         let t := default 0 s in
         if decide (in_int64 (t + q)) then Ok (Some (t + q))
         else Err IntegerOverflow).
Proof.
  intros Hq Hp. eexists. split.
  - unfold add_food_listing, execute_sql. simpl.
    rewrite !bind_int_ok by done. reflexivity.
  - unfold total_quantity. simpl. rewrite fmap_app. simpl. apply SUM_snoc.
Qed.

(** C1, as the code has it: the insert of a listing with quantity 5 (and a
    provider identifier that is a 64-bit integer) returns normally; when the total shown before is an integer [t], the
    total shown after is [t + 5] if that still fits in 64 bits, and the
    query raises the engine's integer overflow if not; on an empty
    [food_listings] the total shown before is NULL and the one after
    is 5. *)
Theorem add_5_then_total (db : database) n e p pt loc ft mt :
  in_int64 p →
  let total_label := "Total quantity of food available" in
  let shows v := Ok (Frame ["total_available_food"] [[v]]) in
  ∃ db',
    add_food_listing n 5 e p pt loc ft mt db = (Ok (), db')
    ∧ (∀ t, run_catalog_query total_label db = (shows (VInt t), db) →
         (in_int64 (t + 5) →
            run_catalog_query total_label db' = (shows (VInt (t + 5)), db'))
         ∧ (¬ in_int64 (t + 5) →
            run_catalog_query total_label db' = (Err IntegerOverflow, db')))
    ∧ (food_listings db = [] →
         run_catalog_query total_label db = (shows VNull, db)
         ∧ run_catalog_query total_label db' = (shows (VInt 5), db')).
Proof.
  intros Hp total_label shows.
  destruct (total_quantity_after_add db n 5 e p pt loc ft mt)
    as (db' & Hadd & Htot); [compute_done|done|].
  exists db'. split; [done|]. unfold total_label.
  rewrite !total_query_runs, Htot. split.
  - intros t Ht. injection Ht as Ht.
    destruct (total_quantity db) as [[s|]|err]; simpl in *; try done.
    injection Ht as ->. split; intros H5.
    + by rewrite decide_True.
    + by rewrite decide_False.
  - intros Hnil. unfold total_quantity. rewrite Hnil. done.
Qed.

Lemma add_5_then_total_witness :
  let total_label := "Total quantity of food available" in
  let shows v := Ok (Frame ["total_available_food"] [[v]]) in
  ∃ db',
    add_food_listing "Rice" 5 "2025-01-01" 1 "Restaurant" "Downtown"
      "Vegetarian" "Lunch" sample_database = (Ok (), db')
    ∧ (∀ t, run_catalog_query total_label sample_database
              = (shows (VInt t), sample_database) →
         (in_int64 (t + 5) →
            run_catalog_query total_label db' = (shows (VInt (t + 5)), db'))
         ∧ (¬ in_int64 (t + 5) →
            run_catalog_query total_label db' = (Err IntegerOverflow, db')))
    ∧ (food_listings sample_database = [] →
         run_catalog_query total_label sample_database
           = (shows VNull, sample_database)
         ∧ run_catalog_query total_label db' = (shows (VInt 5), db')).
Proof.
  apply (add_5_then_total sample_database "Rice" "2025-01-01" 1 "Restaurant"
           "Downtown" "Vegetarian" "Lunch").
  compute_done.
Defined.

(** C1 as stated fails in two database states.  With no listing the total
    shown before the insert is NULL, not a number that 5 is added to; and
    with a total of [INT64_MAX] the query after the insert raises instead
    of showing a total. *)
Lemma add_5_total_not_5_greater :
  let total_label := "Total quantity of food available" in
  let add := add_food_listing "Rice" 5 "2025-01-01" 1 "Restaurant"
               "Downtown" "Vegetarian" "Lunch" in
  ((run_catalog_query total_label empty_database).1
     = Ok (Frame ["total_available_food"] [[VNull]])
   ∧ (run_catalog_query total_label (add empty_database).2).1
     = Ok (Frame ["total_available_food"] [[VInt 5]]))
  ∧ ((run_catalog_query total_label brimful_database).1
     = Ok (Frame ["total_available_food"] [[VInt INT64_MAX]])
   ∧ (add brimful_database).1 = Ok ()
   ∧ (run_catalog_query total_label (add brimful_database).2).1
     = Err IntegerOverflow).
Proof. vm_compute. done. Qed.

(** ** The catalog reads and never writes *)

Lemma read_sql_file (s : sql) (conn : connection) :
  file (read_sql s conn).2 = file conn.
Proof.
  destruct s as [q|w]; [done|]. simpl.
  by destruct (cursor_execute w (view conn)) as [[n v]|e].
Qed.

Lemma run_query_state (s : sql) (db : database) : (run_query s db).2 = db.
Proof. unfold run_query, close. simpl. by rewrite read_sql_file. Qed.

(** [execute_sql] read on a connection: the statement is executed on a
    connection opened on the file, and what the connection then sees is
    committed before it is closed; a statement that raises leaves the file
    as it was. *)
Lemma execute_sql_commits (s : statement) (db : database) :
  execute_sql s db =
    let conn := get_connection db in
    match cursor_execute s (view conn) with
    | Ok (_, v) => (Ok (), close (commit (Connection (file conn) v)))
    | Err e => (Err e, close conn)
    end.
Proof.
  unfold execute_sql. simpl. by destruct (cursor_execute s db) as [[n v]|e].
Qed.

Lemma run_catalog_query_state (label : string) (db : database) :
  (run_catalog_query label db).2 = db.
Proof.
  unfold run_catalog_query, bind, lift.
  destruct (getitem label QUERIES) as [s|e]; [|done].
  pose proof (run_query_state s db) as Hs.
  by destruct (run_query s db) as [[df|e] db'].
Qed.

Lemma contact_query_runs (db : database) :
  run_catalog_query "Contact info of providers in a specific city " db =
    (Ok (Frame ["name"; "contact"]
           ((λ r, [VText r.1; VText r.2]) <$> contact_info db)), db).
Proof. reflexivity. Qed.

(** A write statement read through [pd.read_sql] would change what the
    connection sees, though not the file, as nothing is committed. *)
Example write_through_read_sql_sample :
  let after :=
    read_sql (WRITE (DELETE_FROM_food_listings 1))
      (get_connection sample_database) in
  after.1 = Err TypeError
  ∧ food_ids (view after.2) = [2; 3]
  ∧ file after.2 = sample_database
  ∧ (run_query (WRITE (DELETE_FROM_food_listings 1)) sample_database).2
    = sample_database.
Proof. repeat split. Qed.

(** C10: each of the thirteen catalog entries is a SELECT statement, none a
    write; read through [pd.read_sql] on an open connection it leaves the
    connection as it was, the database it sees included; and running it by
    its label, or from the analytics page, leaves the database file as it
    was.  The entry "Contact info of providers in a specific city " never
    fails; its rows are the name and contact of the providers whose city is
    'Mooreview' and of no other, one row for each of them; and its result
    is the same on two databases with the same providers table: the city
    is fixed in the text and no other table is read. *)
Theorem catalog_is_read_only (db : database) (label : string) :
  Forall (λ entry, ∃ q, entry.2 = SELECT q) QUERIES
  ∧ Forall (λ entry, ∀ conn, (read_sql entry.2 conn).2 = conn) QUERIES
  ∧ (run_catalog_query label db).2 = db
  ∧ (∀ pressed, (main (View_Analytics label pressed) db).2 = db)
  ∧ let contact_label := "Contact info of providers in a specific city " in
    (∃ rows,
       run_catalog_query contact_label db
         = (Ok (Frame ["name"; "contact"] rows), db)
       ∧ (∀ row, row ∈ rows ↔
            ∃ p, p ∈ providers db ∧ Provider.city p = "Mooreview"
                 ∧ row = [VText (Provider.name p);
                          VText (Provider.contact p)])
       ∧ length rows
         = length (filter (λ p, Provider.city p = "Mooreview")
                     (providers db)))
    ∧ ∀ db2, providers db2 = providers db →
        (run_catalog_query contact_label db2).1
          = (run_catalog_query contact_label db).1.
Proof.
  assert (Hsel : Forall (λ entry : string * sql, ∃ q, entry.2 = SELECT q)
                   QUERIES).
  { unfold QUERIES. repeat (apply Forall_cons; split; [by eexists|]).
    apply Forall_nil_2. }
  split; [done|]. split.
  { eapply Forall_impl; [exact Hsel|]. intros [k s] [q Hq] conn.
    simpl in Hq. by subst s. }
  split; [apply run_catalog_query_state|]. split; [|split].
  - intros [|]; [|done]. unfold main, bind, ret.
    pose proof (run_catalog_query_state label db) as H.
    by destruct (run_catalog_query label db) as [[df|e] db'].
  - eexists. split; [apply contact_query_runs|]. split.
    + intros row.
      unfold contact_info. rewrite <-list_fmap_compose, list_elem_of_fmap.
      split.
      * intros (p & -> & Hp). apply list_elem_of_filter in Hp as [Hc Hp].
        by exists p.
      * intros (p & Hp & Hc & ->). exists p. split; [done|].
        by apply list_elem_of_filter.
    + unfold contact_info. by rewrite !length_fmap.
  - intros db2 Heq. rewrite !contact_query_runs. unfold contact_info.
    by rewrite Heq.
Qed.

(** ** Grouping, ordering and the first row *)

Section group_by_facts.
Context {A K : Type} `{EqDecision K} (key : A → K).
Implicit Types (rows : list A) (k : K).

Lemma group_by_keys rows :
  (group_by key rows).*1 = remove_dups (key <$> rows).
Proof.
  unfold group_by. rewrite <-list_fmap_compose.
  rewrite <-(list_fmap_id (remove_dups _)) at 2.
  by apply list_fmap_ext.
Qed.

Lemma NoDup_group_by_keys rows : NoDup (group_by key rows).*1.
Proof. rewrite group_by_keys. apply NoDup_remove_dups. Qed.

Lemma elem_of_group_by_keys rows k :
  k ∈ (group_by key rows).*1 ↔ ∃ r, r ∈ rows ∧ key r = k.
Proof.
  rewrite group_by_keys, elem_of_remove_dups, list_elem_of_fmap.
  split; intros (r & H1 & H2); exists r; by split.
Qed.

Lemma elem_of_group_by rows k g :
  (k, g) ∈ group_by key rows ↔
    g = group key k rows ∧ ∃ r, r ∈ rows ∧ key r = k.
Proof.
  unfold group_by. rewrite list_elem_of_fmap. split.
  - intros (k' & [= -> ->] & Hk). split; [done|].
    apply elem_of_remove_dups, list_elem_of_fmap in Hk as (r & -> & Hr).
    by exists r.
  - intros (-> & r & Hr & <-). exists (key r). split; [done|].
    apply elem_of_remove_dups, list_elem_of_fmap. eauto.
Qed.

Lemma group_by_nil rows : group_by key rows = [] ↔ rows = [].
Proof.
  split; [|by intros ->]. destruct rows as [|r rows]; [done|]. intros Hnil.
  assert (Hin : key r ∈ (group_by key (r :: rows)).*1).
  { apply elem_of_group_by_keys. exists r. split; [left|done]. }
  rewrite Hnil in Hin. by apply elem_of_nil in Hin.
Qed.

(** One aggregate per group: the keys are the distinct keys, and each value
    is the aggregate of the rows that carry the key. *)
Lemma aggregate_keys {V} (agg : list A → V) rows :
  ((λ kg, (kg.1, agg kg.2)) <$> group_by key rows).*1
    = remove_dups (key <$> rows).
Proof. rewrite <-list_fmap_compose. apply group_by_keys. Qed.

Lemma elem_of_aggregate {V} (agg : list A → V) rows k v :
  (k, v) ∈ (λ kg, (kg.1, agg kg.2)) <$> group_by key rows ↔
    v = agg (group key k rows) ∧ ∃ r, r ∈ rows ∧ key r = k.
Proof.
  rewrite list_elem_of_fmap. split.
  - intros ([k' g] & [= -> ->] & Hg).
    apply elem_of_group_by in Hg as [-> Hr]. by split.
  - intros (-> & Hr). exists (k, group key k rows). split; [done|].
    by apply elem_of_group_by.
Qed.
End group_by_facts.

Section first_row.
Context {A : Type} (R : relation A) `{∀ a b, Decision (R a b)}.
Context `{!Total R, !Transitive R}.

(** The first row of a sorted table is in relation with every row. *)
Lemma limit_1_merge_sort (rows : list A) :
  (rows = [] ∧ limit_1 (merge_sort R rows) = [])
  ∨ ∃ r, limit_1 (merge_sort R rows) = [r] ∧ r ∈ rows
         ∧ ∀ r', r' ∈ rows → R r r'.
Proof.
  pose proof (StronglySorted_merge_sort R rows) as Hs.
  pose proof (merge_sort_Permutation R rows) as Hp.
  destruct (merge_sort R rows) as [|r l].
  - left. split; [|done]. by apply Permutation_nil_l in Hp.
  - right. exists r. split; [by unfold limit_1; simpl; rewrite take_0|].
    split; [rewrite <-Hp; left|]. intros r' Hr'. rewrite <-Hp in Hr'.
    apply StronglySorted_inv in Hs as [_ Hall].
    rewrite Forall_forall in Hall.
    apply elem_of_cons in Hr' as [->|Hr']; [|by apply Hall].
    by destruct (total R r r).
Qed.
End first_row.

Section ordering.
Context {A : Type} (col : A → Z).
Implicit Types (rows : list A).

Global Instance desc_total : Total (desc col).
Proof. intros a b. unfold desc. lia. Qed.

Global Instance desc_transitive : Transitive (desc col).
Proof. intros a b c. unfold desc. lia. Qed.

Lemma order_by_desc_perm rows : order_by_desc col rows ≡ₚ rows.
Proof. apply merge_sort_Permutation. Qed.

Lemma order_by_desc_sorted rows :
  StronglySorted (desc col) (order_by_desc col rows).
Proof. apply (StronglySorted_merge_sort _). Qed.

Lemma elem_of_order_by_desc rows r : r ∈ order_by_desc col rows ↔ r ∈ rows.
Proof. by rewrite order_by_desc_perm. Qed.

(** Descending, position by position. *)
Lemma order_by_desc_lookup rows (i j : nat) a b :
  (i < j)%nat →
  order_by_desc col rows !! i = Some a →
  order_by_desc col rows !! j = Some b →
  col b ≤ col a.
Proof.
  pose proof (order_by_desc_sorted rows) as Hs.
  revert i j. induction Hs as [|x l Hs IH Hall]; intros i j Hij Hi Hj.
  - by rewrite lookup_nil in Hi.
  - destruct j as [|j]; [lia|]. simpl in Hj. destruct i as [|i].
    + injection Hi as <-. rewrite Forall_forall in Hall.
      apply (Hall b). by eapply list_elem_of_lookup_2.
    + simpl in Hi. apply (IH i j); [lia|done..].
Qed.

(** [LIMIT 1] after [ORDER BY col DESC]: no row from no rows, and else one
    row, of the largest [col]. *)
Lemma limit_1_order_by_desc rows :
  (rows = [] ∧ limit_1 (order_by_desc col rows) = [])
  ∨ ∃ r, limit_1 (order_by_desc col rows) = [r] ∧ r ∈ rows
         ∧ ∀ r', r' ∈ rows → col r' ≤ col r.
Proof. apply (limit_1_merge_sort (desc col)). Qed.
End ordering.

(** ** Counting queries *)

(** The rows of a grouped count, before any ordering. *)
Lemma count_rows_keys {A K} `{EqDecision K} (key : A → K) (rows : list A) :
  (count_rows <$> group_by key rows).*1 = remove_dups (key <$> rows).
Proof. apply (aggregate_keys key count). Qed.

Lemma elem_of_count_rows {A K} `{EqDecision K} (key : A → K) rows k n :
  (k, n) ∈ count_rows <$> group_by key rows ↔
    n = Z.of_nat (length (filter (λ r, key r = k) rows))
    ∧ ∃ r, r ∈ rows ∧ key r = k.
Proof. apply (elem_of_aggregate key count). Qed.

(** What an ordered, grouped count returns: one row per distinct key, each
    with the number of rows that carry the key. *)
Lemma ordered_count_rows {A K} `{EqDecision K} (key : A → K) rows :
  let out := order_by_desc snd (count_rows <$> group_by key rows) in
  NoDup out.*1
  ∧ (∀ k, k ∈ out.*1 ↔ ∃ r, r ∈ rows ∧ key r = k)
  ∧ (∀ k n, (k, n) ∈ out →
       n = Z.of_nat (length (filter (λ r, key r = k) rows))).
Proof.
  intros out. unfold out. split; [|split].
  - rewrite order_by_desc_perm, count_rows_keys. apply NoDup_remove_dups.
  - intros k. rewrite order_by_desc_perm, count_rows_keys.
    rewrite elem_of_remove_dups, list_elem_of_fmap.
    split; intros (r & H1 & H2); exists r; by split.
  - intros k n Hin. rewrite elem_of_order_by_desc in Hin.
    by apply elem_of_count_rows in Hin as [-> _].
Qed.

(** C8: "Most commonly available food types" returns the columns
    [food_type] and [count], one row per distinct food type of
    [food_listings] with the number of listings of that type, the larger
    counts first. *)
Theorem food_types_by_count (db : database) :
  ∃ rows : list (string * Z),
    run_catalog_query "Most commonly available food types" db
      = (Ok (Frame ["food_type"; "count"]
               ((λ r, [VText r.1; VInt r.2]) <$> rows)), db)
    ∧ NoDup rows.*1
    ∧ (∀ t, t ∈ rows.*1 ↔
         ∃ f, f ∈ food_listings db ∧ FoodListing.food_type f = t)
    ∧ (∀ t n, (t, n) ∈ rows →
         n = Z.of_nat (length (filter (λ f, FoodListing.food_type f = t)
                                 (food_listings db))))
    ∧ ∀ (i j : nat) a b,
        (i < j)%nat → rows !! i = Some a → rows !! j = Some b → b.2 ≤ a.2.
Proof.
  exists (most_common_food_types db). split; [reflexivity|].
  unfold most_common_food_types.
  destruct (ordered_count_rows FoodListing.food_type (food_listings db))
    as (Hnd & Hkeys & Hcount).
  do 3 (split; [done|]). intros i j a b. apply order_by_desc_lookup.
Qed.

(** ** Providers and receivers per city *)

Lemma length_remove_dups_size (l : list Z) :
  length (remove_dups l) = size (list_to_set l : gset Z).
Proof.
  rewrite <-(size_list_to_set (C:=gset Z) (remove_dups l))
    by apply NoDup_remove_dups.
  f_equal. apply set_eq. intros x.
  by rewrite !elem_of_list_to_set, elem_of_remove_dups.
Qed.

Lemma combined_cities (db : database) (c : string) :
  c ∈ (λ x, x.1.1) <$> combined db ↔
    (∃ p, p ∈ providers db ∧ Provider.city p = c)
    ∨ (∃ r, r ∈ receivers db ∧ Receiver.city r = c).
Proof.
  unfold combined. rewrite fmap_app, elem_of_app, <-!list_fmap_compose.
  rewrite !list_elem_of_fmap. simpl.
  split; (intros [(x & H1 & H2)|(x & H1 & H2)]; [left|right]);
    exists x; by split.
Qed.

(** In the group of a city, the provider_id column holds the identifiers of
    the city's providers and a NULL for each of its receivers; the
    receiver_id column the other way round. *)
Lemma provider_rows_provider_ids (c : string) (l : list Provider.row) :
  omap (λ x : string * option Z * option Z, x.1.2)
    (filter (λ x, x.1.1 = c)
       ((λ p, (Provider.city p, Some (Provider.provider_id p), None)) <$> l))
  = Provider.provider_id <$> filter (λ p, Provider.city p = c) l.
Proof.
  induction l as [|p l IH]; [done|]. rewrite fmap_cons.
  destruct (decide (Provider.city p = c)) as [Hc|Hc].
  - rewrite !filter_cons_True by done. simpl. f_equal. exact IH.
  - rewrite !filter_cons_False by done. exact IH.
Qed.

Lemma provider_rows_receiver_ids (c : string) (l : list Provider.row) :
  omap (λ x : string * option Z * option Z, x.2)
    (filter (λ x, x.1.1 = c)
       ((λ p, (Provider.city p, Some (Provider.provider_id p), None)) <$> l))
  = [].
Proof.
  induction l as [|p l IH]; [done|]. rewrite fmap_cons.
  destruct (decide (Provider.city p = c)) as [Hc|Hc].
  - rewrite !filter_cons_True by done. exact IH.
  - rewrite !filter_cons_False by done. exact IH.
Qed.

Lemma receiver_rows_receiver_ids (c : string) (l : list Receiver.row) :
  omap (λ x : string * option Z * option Z, x.2)
    (filter (λ x, x.1.1 = c)
       ((λ r, (Receiver.city r, None, Some (Receiver.receiver_id r))) <$> l))
  = Receiver.receiver_id <$> filter (λ r, Receiver.city r = c) l.
Proof.
  induction l as [|r l IH]; [done|]. rewrite fmap_cons.
  destruct (decide (Receiver.city r = c)) as [Hc|Hc].
  - rewrite !filter_cons_True by done. simpl. f_equal. exact IH.
  - rewrite !filter_cons_False by done. exact IH.
Qed.

Lemma receiver_rows_provider_ids (c : string) (l : list Receiver.row) :
  omap (λ x : string * option Z * option Z, x.1.2)
    (filter (λ x, x.1.1 = c)
       ((λ r, (Receiver.city r, None, Some (Receiver.receiver_id r))) <$> l))
  = [].
Proof.
  induction l as [|r l IH]; [done|]. rewrite fmap_cons.
  destruct (decide (Receiver.city r = c)) as [Hc|Hc].
  - rewrite !filter_cons_True by done. exact IH.
  - rewrite !filter_cons_False by done. exact IH.
Qed.

Lemma combined_provider_ids (db : database) (c : string) :
  omap (λ x, x.1.2) (group (λ x, x.1.1) c (combined db)) =
    Provider.provider_id
      <$> filter (λ p, Provider.city p = c) (providers db).
Proof.
  unfold group, combined. rewrite filter_app, omap_app.
  by rewrite provider_rows_provider_ids, receiver_rows_provider_ids,
    app_nil_r.
Qed.

Lemma combined_receiver_ids (db : database) (c : string) :
  omap (λ x, x.2) (group (λ x, x.1.1) c (combined db)) =
    Receiver.receiver_id
      <$> filter (λ r, Receiver.city r = c) (receivers db).
Proof.
  unfold group, combined. rewrite filter_app, omap_app.
  by rewrite provider_rows_receiver_ids, receiver_rows_receiver_ids.
Qed.

Lemma filter_none {A} (P : A → Prop) `{∀ x, Decision (P x)} (l : list A) :
  (∀ x, x ∈ l → ¬ P x) → filter P l = [].
Proof.
  induction l as [|x l IH]; [done|]. intros Hl.
  rewrite filter_cons_False by (apply Hl; left).
  apply IH. intros y Hy. apply Hl. by right.
Qed.

Lemma per_city_rows (db : database) (c : string) (np nr : Z) :
  (c, np, nr) ∈ providers_receivers_per_city db ↔
    np = count_distinct (λ x, x.1.2) (group (λ x, x.1.1) c (combined db))
    ∧ nr = count_distinct (λ x, x.2) (group (λ x, x.1.1) c (combined db))
    ∧ c ∈ (λ x, x.1.1) <$> combined db.
Proof.
  unfold providers_receivers_per_city. rewrite list_elem_of_fmap. split.
  - intros ([c' g] & [= -> -> ->] & Hg).
    apply elem_of_group_by in Hg as [-> (r & Hr & <-)].
    do 2 (split; [done|]). apply list_elem_of_fmap. by exists r.
  - intros (-> & -> & Hc). apply list_elem_of_fmap in Hc as (r & -> & Hr).
    exists (r.1.1, group (λ x, x.1.1) r.1.1 (combined db)).
    split; [done|]. apply elem_of_group_by. split; [done|]. by exists r.
Qed.

Lemma per_city_cities (db : database) :
  (providers_receivers_per_city db).*1.*1
    = remove_dups ((λ x, x.1.1) <$> combined db).
Proof.
  unfold providers_receivers_per_city. rewrite <-!list_fmap_compose.
  rewrite <-(group_by_keys (λ x : string * option Z * option Z, x.1.1)).
  apply list_fmap_ext. by intros _ [c g] _.
Qed.

(** C6: "Providers & Receivers per City" returns one row per city that a
    provider or a receiver is located in, and no other row; the row of a
    city carries the number of distinct provider identifiers and the number
    of distinct receiver identifiers of that city, which is 0 for the kind
    the city has none of. *)
Theorem per_city_counts (db : database) :
  ∃ rows : list (string * Z * Z),
    run_catalog_query "Providers & Receivers per City" db
      = (Ok (Frame ["city"; "total_providers"; "total_receivers"]
               ((λ r, [VText r.1.1; VInt r.1.2; VInt r.2]) <$> rows)), db)
    ∧ NoDup rows.*1.*1
    ∧ (∀ c, c ∈ rows.*1.*1 ↔
         (∃ p, p ∈ providers db ∧ Provider.city p = c)
         ∨ (∃ r, r ∈ receivers db ∧ Receiver.city r = c))
    ∧ ∀ c np nr, (c, np, nr) ∈ rows →
        np = Z.of_nat (size (list_to_set (Provider.provider_id
               <$> filter (λ p, Provider.city p = c) (providers db))
               : gset Z))
        ∧ nr = Z.of_nat (size (list_to_set (Receiver.receiver_id
               <$> filter (λ r, Receiver.city r = c) (receivers db))
               : gset Z))
        ∧ ((∀ p, p ∈ providers db → Provider.city p ≠ c) → np = 0)
        ∧ ((∀ r, r ∈ receivers db → Receiver.city r ≠ c) → nr = 0).
Proof.
  exists (providers_receivers_per_city db). split; [reflexivity|].
  split; [rewrite per_city_cities; apply NoDup_remove_dups|]. split.
  - intros c. rewrite per_city_cities, elem_of_remove_dups.
    apply combined_cities.
  - intros c np nr Hrow. apply per_city_rows in Hrow as (-> & -> & _).
    unfold count_distinct.
    rewrite combined_provider_ids, combined_receiver_ids.
    rewrite !length_remove_dups_size. do 2 (split; [done|]).
    split; intros Hnone; rewrite filter_none by done; done.
Qed.

(** ** The "most" and "highest" queries *)

Lemma limit_1_count_top {A K} `{EqDecision K} (key : A → K) (rows : list A) :
  top_group key count rows
    (limit_1 (order_by_desc snd (count_rows <$> group_by key rows))).
Proof.
  destruct (limit_1_order_by_desc snd (count_rows <$> group_by key rows))
    as [[Hnil Hout]|([k n] & Hout & Hr & Hmax)].
  - left. split; [|done]. apply fmap_nil_inv in Hnil.
    by apply group_by_nil in Hnil.
  - right. apply elem_of_count_rows in Hr as [-> Hex]. exists k.
    split; [done|]. split; [done|]. intros k' Hk'.
    apply (Hmax (k', count (group key k' rows))).
    by apply elem_of_count_rows.
Qed.

Lemma sum_from_ok (acc t : Z) (l : list Z) :
  sum_from acc l = Ok t → t = acc + sum_of l.
Proof.
  revert acc. induction l as [|x l IH]; intros acc; simpl.
  - intros [= <-]. lia.
  - destruct (decide (in_int64 (acc + x))); [|done].
    intros Ht%IH. lia.
Qed.

Lemma sum_from_err (acc : Z) (l : list Z) e :
  sum_from acc l = Err e → e = IntegerOverflow.
Proof.
  revert acc. induction l as [|x l IH]; intros acc; simpl; [done|].
  destruct (decide (in_int64 (acc + x))); [apply IH|]. by intros [= <-].
Qed.

Lemma SUM_ok (l : list Z) s :
  l ≠ [] → SUM l = Ok s → s = Some (sum_of l).
Proof.
  destruct l as [|x l]; [done|]. intros _. unfold SUM.
  destruct (sum_from 0 (x :: l)) as [t|e] eqn:Ht; [|done].
  apply sum_from_ok in Ht. intros [= <-]. f_equal. lia.
Qed.

Lemma SUM_err (l : list Z) e : SUM l = Err e → e = IntegerOverflow.
Proof.
  destruct l as [|x l]; [done|]. unfold SUM.
  destruct (sum_from 0 (x :: l)) as [t|e'] eqn:Ht; [done|].
  apply sum_from_err in Ht. by intros [= <-].
Qed.

Lemma collect_ok {A B} (f : A → result B) (g : A → B) (l : list A) ys :
  (∀ x y, x ∈ l → f x = Ok y → y = g x) →
  collect f l = Ok ys → ys = g <$> l.
Proof.
  revert ys. induction l as [|x l IH]; intros ys Hg; simpl.
  - by intros [= <-].
  - destruct (f x) as [y|e] eqn:Hy; [|done]. simpl.
    destruct (collect f l) as [ys'|e] eqn:Hys; [|done]. simpl.
    intros [= <-]. rewrite (Hg x y); [|left|done].
    rewrite (IH ys'); [done| |done]. intros x' y' Hx'. apply Hg. by right.
Qed.

Lemma collect_err {A B} (f : A → result B) (l : list A) e :
  collect f l = Err e → ∃ x, x ∈ l ∧ f x = Err e.
Proof.
  induction l as [|x l IH]; simpl; [done|].
  destruct (f x) as [y|e'] eqn:Hy; simpl.
  - destruct (collect f l) as [ys'|e'] eqn:Hys; [done|]. simpl.
    intros [= <-]. destruct IH as (x' & Hx' & He); [done|].
    exists x'. split; [by right|done].
  - intros [= <-]. exists x. split; [left|done].
Qed.

Global Instance desc_nullable_total {A} (col : A → option Z) :
  Total (desc_nullable col).
Proof.
  intros a b. unfold desc_nullable, null_le.
  destruct (col a), (col b); try lia; auto.
Qed.

Global Instance desc_nullable_transitive {A} (col : A → option Z) :
  Transitive (desc_nullable col).
Proof.
  intros a b c. unfold desc_nullable, null_le.
  destruct (col a), (col b), (col c); try lia; auto.
Qed.

Lemma group_nonempty {A K} `{EqDecision K} (key : A → K) rows k :
  (∃ r, r ∈ rows ∧ key r = k) → group key k rows ≠ [].
Proof.
  intros (r & Hr & Hk) Hnil.
  assert (Hin : r ∈ group key k rows) by by apply list_elem_of_filter.
  rewrite Hnil in Hin. by apply elem_of_nil in Hin.
Qed.

(** The summed query: it raises only when the SUM of a group overflows, and
    else returns the top group by exact sum, which is never NULL. *)
Lemma provider_type_most_food_top (db : database) :
  match provider_type_most_food db with
  | Ok out =>
      ∃ out', out = (λ r, (r.1, Some r.2)) <$> out'
        ∧ top_group FoodListing.provider_type
            (λ g, sum_of (FoodListing.quantity <$> g)) (food_listings db) out'
  | Err e =>
      e = IntegerOverflow
      ∧ ∃ t, (∃ f, f ∈ food_listings db ∧ FoodListing.provider_type f = t)
          ∧ SUM (FoodListing.quantity
                   <$> group FoodListing.provider_type t (food_listings db))
            = Err IntegerOverflow
  end.
Proof.
  unfold provider_type_most_food.
  set (l := food_listings db).
  set (w := λ g : list FoodListing.row, sum_of (FoodListing.quantity <$> g)).
  destruct (collect sum_quantity (group_by FoodListing.provider_type l))
    as [rows|e] eqn:Hc; simpl.
  - apply (collect_ok _ (λ kg, (kg.1, Some (w kg.2)))) in Hc.
    2: { intros [k g] y Hkg. apply elem_of_group_by in Hkg as [-> Hex].
         unfold sum_quantity. simpl.
         destruct (SUM _) as [s|e] eqn:Hs; [|done]. simpl. intros [= <-].
         apply SUM_ok in Hs as ->; [done|]. intros Hnil%fmap_nil_inv.
         by apply group_nonempty in Hex. }
    subst rows. unfold order_by_desc_nullable.
    destruct (limit_1_merge_sort (desc_nullable snd)
                ((λ kg, (kg.1, Some (w kg.2)))
                   <$> group_by FoodListing.provider_type l))
      as [[Hnil Hout]|(r & Hout & Hr & Hmax)].
    + exists []. split; [done|]. left. split; [|done].
      apply fmap_nil_inv in Hnil. by apply group_by_nil in Hnil.
    + apply list_elem_of_fmap in Hr as ([k g] & -> & Hkg).
      apply elem_of_group_by in Hkg as [-> Hex].
      exists [(k, w (group FoodListing.provider_type k l))].
      split; [done|]. right. exists k. split; [done|]. split; [done|].
      intros k' Hex'.
      apply (Hmax (k', Some (w (group FoodListing.provider_type k' l)))).
      apply list_elem_of_fmap.
      exists (k', group FoodListing.provider_type k' l). split; [done|].
      by apply elem_of_group_by.
  - apply collect_err in Hc as ([k g] & Hkg & He).
    apply elem_of_group_by in Hkg as [-> Hex].
    unfold sum_quantity in He. simpl in He.
    destruct (SUM _) as [s|e'] eqn:Hs; [done|]. simpl in He.
    injection He as ->. pose proof (SUM_err _ _ Hs) as ->.
    split; [done|]. by exists k.
Qed.

(** With quantities that are not negative, a SUM succeeds as soon as the
    exact sum fits in 64 bits, and so does the SUM of any part of the
    rows. *)
Lemma sum_of_nonneg (l : list Z) : Forall (λ x, 0 ≤ x) l → 0 ≤ sum_of l.
Proof. induction 1 as [|x l Hx Hl IH]; [done|]. rewrite sum_of_cons. lia. Qed.

Lemma sum_from_nonneg (acc : Z) (l : list Z) :
  0 ≤ acc → Forall (λ x, 0 ≤ x) l → acc + sum_of l ≤ INT64_MAX →
  sum_from acc l = Ok (acc + sum_of l).
Proof.
  intros Hacc Hl. revert acc Hacc.
  induction Hl as [|x l Hx Hl IH]; intros acc Hacc Hfit.
  - simpl. f_equal. unfold sum_of. simpl. lia.
  - rewrite sum_of_cons in Hfit |- *.
    pose proof (sum_of_nonneg l Hl) as Hnn.
    cbn [sum_from]. rewrite decide_True.
    + rewrite IH by lia. f_equal. lia.
    + unfold in_int64, INT64_MIN. lia.
Qed.

Lemma SUM_nonneg (l : list Z) :
  Forall (λ x, 0 ≤ x) l → sum_of l ≤ INT64_MAX → ∃ s, SUM l = Ok s.
Proof.
  intros Hl Hfit. destruct l as [|x l]; [by exists None|].
  exists (Some (sum_of (x :: l))). unfold SUM.
  by rewrite sum_from_nonneg.
Qed.

Lemma sum_of_filter_le {A} (col : A → Z) (P : A → Prop)
    `{∀ x, Decision (P x)} (l : list A) :
  Forall (λ x, 0 ≤ col x) l →
  sum_of (col <$> filter P l) ≤ sum_of (col <$> l).
Proof.
  induction 1 as [|x l Hx Hl IH]; [done|].
  rewrite filter_cons, fmap_cons, sum_of_cons.
  destruct (decide (P x)); [rewrite fmap_cons, sum_of_cons|]; lia.
Qed.

(** C7, as the code has it: each of the four queries returns no row when
    there is nothing to group (no listing, no claim with its listing, no
    completed claim with its listing and provider) and else exactly one
    row, the row of a group whose aggregate no group exceeds; the summed
    query raises instead when the SUM of a provider type overflows, which
    it does not when no quantity is negative and all of them together fit
    in 64 bits. *)
Theorem most_queries_top_row (db : database) :
  (∃ out,
     run_catalog_query "City with highest number of food listings" db
       = (Ok (Frame ["location"; "total_listings"]
                ((λ r, [VText r.1; VInt r.2]) <$> out)), db)
     ∧ top_group FoodListing.location count (food_listings db) out)
  ∧ (∃ out,
       run_catalog_query "Most claimed meal type" db
         = (Ok (Frame ["meal_type"; "total_claims"]
                  ((λ r, [VText r.1; VInt r.2]) <$> out)), db)
       ∧ top_group (λ cf, FoodListing.meal_type cf.2) count
           (claims_listings db) out)
  ∧ (∃ out,
       run_catalog_query
         "Provider with highest number of successful food claims" db
         = (Ok (Frame ["name"; "completed_claims"]
                  ((λ r, [VText r.1; VInt r.2]) <$> out)), db)
       ∧ top_group (λ cfp, Provider.name cfp.2) count
           (completed_claims db) out)
  ∧ ((∃ out,
        run_catalog_query "Provider type contributing most food" db
          = (Ok (Frame ["provider_type"; "total_quantity"]
                   ((λ r, [VText r.1; VInt r.2]) <$> out)), db)
        ∧ top_group FoodListing.provider_type
            (λ g, sum_of (FoodListing.quantity <$> g))
            (food_listings db) out)
     ∨ (run_catalog_query "Provider type contributing most food" db
          = (Err IntegerOverflow, db)
        ∧ ∃ t, (∃ f, f ∈ food_listings db ∧ FoodListing.provider_type f = t)
            ∧ SUM (FoodListing.quantity
                     <$> group FoodListing.provider_type t (food_listings db))
              = Err IntegerOverflow))
  ∧ ((∀ f, f ∈ food_listings db → 0 ≤ FoodListing.quantity f) →
     sum_of (FoodListing.quantity <$> food_listings db) ≤ INT64_MAX →
     ∃ df, run_catalog_query "Provider type contributing most food" db
             = (Ok df, db)).
Proof.
  assert (Hrun :
    run_catalog_query "Provider type contributing most food" db =
      (rows ← provider_type_most_food db;
       Ok (Frame ["provider_type"; "total_quantity"]
             (text_nullable <$> rows)), db)) by reflexivity.
  pose proof (provider_type_most_food_top db) as Htop.
  split; [|split; [|split; [|split]]].
  - exists (city_most_listings db). split; [reflexivity|].
    apply limit_1_count_top.
  - exists (most_claimed_meal_type db). split; [reflexivity|].
    apply limit_1_count_top.
  - exists (provider_most_completed_claims db). split; [reflexivity|].
    apply limit_1_count_top.
  - rewrite Hrun. destruct (provider_type_most_food db) as [out|e]; simpl.
    + left. destruct Htop as (out' & -> & Htop'). exists out'.
      split; [|done]. by rewrite <-list_fmap_compose.
    + right. by destruct Htop as [-> Ht].
  - intros Hnn Hfit. rewrite Hrun.
    destruct (provider_type_most_food db) as [out|e]; simpl; [by eexists|].
    destruct Htop as (-> & t & _ & Herr). exfalso.
    assert (Hall : Forall (λ f, 0 ≤ FoodListing.quantity f) (food_listings db))
      by by apply Forall_forall.
    destruct (SUM_nonneg (FoodListing.quantity
                <$> group FoodListing.provider_type t (food_listings db)))
      as [s Hs].
    + apply Forall_fmap, Forall_forall. intros f Hf. simpl.
      apply Hnn. by apply list_elem_of_filter in Hf as [_ Hf].
    + pose proof (sum_of_filter_le FoodListing.quantity
        (λ f, FoodListing.provider_type f = t) (food_listings db) Hall).
      unfold group. lia.
    + congruence.
Qed.

(** C7 as stated fails: on the empty database none of the four queries
    returns a row, and with listings but no claim the most claimed meal
    type has no row either. *)
Lemma most_queries_no_row_on_empty :
  (run_catalog_query "Provider type contributing most food"
     empty_database).1
    = Ok (Frame ["provider_type"; "total_quantity"] [])
  ∧ (run_catalog_query "City with highest number of food listings"
       empty_database).1
    = Ok (Frame ["location"; "total_listings"] [])
  ∧ (run_catalog_query
       "Provider with highest number of successful food claims"
       empty_database).1
    = Ok (Frame ["name"; "completed_claims"] [])
  ∧ (run_catalog_query "Most claimed meal type" empty_database).1
    = Ok (Frame ["meal_type"; "total_claims"] [])
  ∧ food_listings unclaimed_database ≠ []
  ∧ (run_catalog_query "Most claimed meal type" unclaimed_database).1
    = Ok (Frame ["meal_type"; "total_claims"] []).
Proof. vm_compute. done. Qed.

(** ** Percentages of claims *)

(** The rounded percentage is the hundredth nearest to the exact share. *)
Lemma round_percentage_nearest (n d : Z) :
  0 ≤ n → 0 < d →
  20000 * n - d < 2 * d * round_percentage n d ≤ 20000 * n + d.
Proof.
  intros Hn Hd. unfold round_percentage.
  pose proof (Z.div_mod (2 * (n * 10000) + d) (2 * d)) as Hdm.
  pose proof (Z.mod_pos_bound (2 * (n * 10000) + d) (2 * d)) as Hm.
  lia.
Qed.

Lemma round_percentage_range (n d : Z) :
  0 ≤ n ≤ d → 0 < d → 0 ≤ round_percentage n d ≤ 10000.
Proof.
  intros Hn Hd. pose proof (round_percentage_nearest n d) as H. nia.
Qed.

Lemma filter_all {A} (P : A → Prop) `{∀ x, Decision (P x)} (l : list A) :
  (∀ x, x ∈ l → P x) → filter P l = l.
Proof.
  induction l as [|x l IH]; [done|]. intros Hl.
  rewrite filter_cons_True by (apply Hl; left).
  f_equal. apply IH. intros y Hy. apply Hl. by right.
Qed.

(** The groups of a table split its rows. *)
Lemma group_sizes_over {A K} `{EqDecision K} (key : A → K) rows ks :
  NoDup ks →
  sum_of ((λ k, count (group key k rows)) <$> ks)
    = count (filter (λ r, key r ∈ ks) rows).
Proof.
  induction 1 as [|k ks Hk Hnd IH].
  - unfold count. rewrite filter_none; [done|].
    intros r _. apply not_elem_of_nil.
  - rewrite fmap_cons, sum_of_cons, IH. unfold count, group. clear IH.
    induction rows as [|r rows IHr]; [done|].
    rewrite !filter_cons.
    destruct (decide (key r = k)) as [Heq|Hne].
    + rewrite decide_False by (by rewrite Heq).
      rewrite decide_True by (rewrite Heq; left). simpl. lia.
    + destruct (decide (key r ∈ ks)) as [Hin|Hnin].
      * rewrite decide_True by (by right). simpl. lia.
      * rewrite decide_False; [lia|].
        intros [?|?]%elem_of_cons; done.
Qed.

Lemma group_sizes {A K} `{EqDecision K} (key : A → K) (rows : list A) :
  sum_of ((λ k, count (group key k rows)) <$> remove_dups (key <$> rows))
    = count rows.
Proof.
  rewrite group_sizes_over by apply NoDup_remove_dups. f_equal.
  apply filter_all. intros r Hr.
  apply elem_of_remove_dups, list_elem_of_fmap. by exists r.
Qed.

Lemma rounded_sum_bound (ns : list Z) (d : Z) :
  0 < d → Forall (λ n, 0 ≤ n) ns →
  20000 * sum_of ns - d * Z.of_nat (length ns)
    ≤ 2 * d * sum_of ((λ n, round_percentage n d) <$> ns)
    ≤ 20000 * sum_of ns + d * Z.of_nat (length ns).
Proof.
  intros Hd. induction 1 as [|n ns Hn Hns IH].
  - simpl. lia.
  - rewrite fmap_cons, !sum_of_cons, length_cons.
    pose proof (round_percentage_nearest n d Hn Hd). nia.
Qed.

Lemma claim_percentages_statuses (db : database) :
  (claim_percentages db).*1 = remove_dups (Claim.status <$> claims db).
Proof.
  unfold claim_percentages. rewrite <-list_fmap_compose.
  rewrite <-(group_by_keys Claim.status).
  apply list_fmap_ext. by intros _ [s g] _.
Qed.

Lemma claim_percentages_values (db : database) :
  (claim_percentages db).*2 =
    (λ n, round_percentage n (count (claims db)))
      <$> ((λ s, count (group Claim.status s (claims db)))
             <$> remove_dups (Claim.status <$> claims db)).
Proof.
  unfold claim_percentages, group_by. by rewrite <-!list_fmap_compose.
Qed.

Lemma elem_of_claim_percentages (db : database) s p :
  (s, p) ∈ claim_percentages db ↔
    p = round_percentage (count (group Claim.status s (claims db)))
          (count (claims db))
    ∧ ∃ c, c ∈ claims db ∧ Claim.status c = s.
Proof.
  unfold claim_percentages. rewrite list_elem_of_fmap. split.
  - intros ([s' g] & [= -> ->] & Hg).
    by apply elem_of_group_by in Hg as [-> Hex].
  - intros (-> & Hex). exists (s, group Claim.status s (claims db)).
    split; [done|]. by apply elem_of_group_by.
Qed.

(** C5, as the code has it: one row per distinct status, whose percentage
    (counted in hundredths) is the status's share rounded to two decimals
    and lies between 0 and 100; no row at all when there is no claim; and
    when there is a claim, the sum of the percentages is off 100 by at most
    0.005 per returned row, hence within 0.1 of 100 when the claims carry
    at most 20 distinct statuses. *)
Theorem claim_percentages_sum (db : database) :
  ∃ rows : list (string * Z),
    run_catalog_query
      "Percentage of food claims completed vs pending vs canceled" db
      = (Ok (Frame ["status"; "percentage"]
               ((λ r, [VText r.1; VReal r.2 100]) <$> rows)), db)
    ∧ NoDup rows.*1
    ∧ (∀ s, s ∈ rows.*1 ↔ ∃ c, c ∈ claims db ∧ Claim.status c = s)
    ∧ (∀ s p, (s, p) ∈ rows →
         let n := Z.of_nat (length (filter (λ c, Claim.status c = s)
                                      (claims db))) in
         let N := Z.of_nat (length (claims db)) in
         0 ≤ p ≤ 10000 ∧ 20000 * n - N ≤ 2 * N * p ≤ 20000 * n + N)
    ∧ (claims db = [] → rows = [])
    ∧ (claims db ≠ [] →
         2 * Z.abs (sum_of rows.*2 - 10000) ≤ Z.of_nat (length rows))
    ∧ (claims db ≠ [] → (length rows ≤ 20)%nat →
         9990 ≤ sum_of rows.*2 ≤ 10010).
Proof.
  exists (claim_percentages db). split; [reflexivity|].
  split; [rewrite claim_percentages_statuses; apply NoDup_remove_dups|].
  split.
  { intros s.
    rewrite claim_percentages_statuses, elem_of_remove_dups, list_elem_of_fmap.
    split; intros (c & H1 & H2); exists c; by split. }
  split.
  { intros s p Hrow n N.
    apply elem_of_claim_percentages in Hrow as [-> (c & Hc & Hs)].
    assert (Hpos : 0 < N).
    { unfold N. destruct (claims db); [by apply elem_of_nil in Hc|].
      simpl. lia. }
    assert (Hn : 0 ≤ n ≤ N).
    { unfold n, N. pose proof (length_filter (λ c, Claim.status c = s)
        (claims db)). lia. }
    split.
    - by apply round_percentage_range.
    - destruct (round_percentage_nearest n N) as [Hlo Hhi]; [lia..|].
      split; [|exact Hhi]. apply Z.lt_le_incl, Hlo. }
  split; [by unfold claim_percentages; intros ->|].
  assert (Hsum : claims db ≠ [] →
    2 * Z.abs (sum_of (claim_percentages db).*2 - 10000)
      ≤ Z.of_nat (length (claim_percentages db))).
  { intros Hne. rewrite claim_percentages_values.
    set (ns := (λ s, count (group Claim.status s (claims db)))
                 <$> remove_dups (Claim.status <$> claims db)).
    assert (Hd : 0 < count (claims db)).
    { unfold count. destruct (claims db); [done|]. simpl. lia. }
    pose proof (rounded_sum_bound ns (count (claims db)) Hd) as Hb.
    assert (Hlen : length ns = length (claim_percentages db)).
    { unfold ns, claim_percentages, group_by. by rewrite !length_fmap. }
    assert (Hns : sum_of ns = count (claims db)) by apply group_sizes.
    rewrite Hlen, Hns in Hb.
    assert (Hall : Forall (λ n, 0 ≤ n) ns).
    { apply Forall_forall. intros n (s & -> & _)%list_elem_of_fmap.
      unfold count. lia. }
    specialize (Hb Hall).
    set (S := sum_of ((λ n, round_percentage n (count (claims db))) <$> ns))
      in *.
    set (N := count (claims db)) in *.
    set (k := Z.of_nat (length (claim_percentages db))) in *.
    assert (Hlo : 0 ≤ N * (2 * S - 20000 + k)) by lia.
    assert (Hhi : 0 ≤ N * (20000 + k - 2 * S)) by lia.
    apply Z.mul_nonneg_cancel_l in Hlo; [|done].
    apply Z.mul_nonneg_cancel_l in Hhi; [|done]. lia. }
  split; [done|]. intros Hne Hlen. specialize (Hsum Hne). lia.
Qed.

(** C5 as stated fails on two sets of claim rows.  With no claim the query
    returns no row, and the percentages sum to 0.  With sixty claims of
    sixty different statuses every share is 1.666..., shown as 1.67, and
    the sixty percentages sum to 100.20. *)
Lemma claim_percentages_sum_off :
  let label :=
    "Percentage of food claims completed vs pending vs canceled" in
  ((run_catalog_query label empty_database).1
     = Ok (Frame ["status"; "percentage"] [])
   ∧ sum_of (claim_percentages empty_database).*2 = 0)
  ∧ ((run_catalog_query label sixty_statuses_database).1
       = Ok (Frame ["status"; "percentage"]
               ((λ n : nat, [VText (pretty n); VReal 167 100]) <$> seq 1 60))
     ∧ sum_of (claim_percentages sixty_statuses_database).*2 = 10020).
Proof. vm_compute. done. Qed.

(** * Further properties of the data access layer and the menu *)

(** ** Delete *)

(** X1: the delete of a 64-bit identifier returns normally and removes
    exactly the listings that carry it: the listings left are those with
    another identifier, in their old order; the row count is the number of
    listings removed; the three other tables are as before; and a second
    delete of the same identifier finds nothing left to remove. *)
Theorem delete_removes_exactly (db : database) (X : Z) :
  in_int64 X →
  ∃ db',
    delete_food_listing X db = (Ok (), db')
    ∧ cursor_execute (DELETE_FROM_food_listings X) db
      = Ok (length (filter (λ f, FoodListing.food_id f = X)
                      (food_listings db)), db')
    ∧ (∀ f, f ∈ food_listings db' ↔
            f ∈ food_listings db ∧ FoodListing.food_id f ≠ X)
    ∧ food_listings db' `sublist_of` food_listings db
    ∧ (length (food_listings db')
       + length (filter (λ f, FoodListing.food_id f = X) (food_listings db))
       = length (food_listings db))%nat
    ∧ providers db' = providers db
    ∧ receivers db' = receivers db
    ∧ claims db' = claims db
    ∧ cursor_execute (DELETE_FROM_food_listings X) db' = Ok (0%nat, db').
Proof.
  intros HX.
  set (db' := with_food_listings
                (filter (λ f, ¬ matches X f) (food_listings db)) db).
  assert (Hagain :
    cursor_execute (DELETE_FROM_food_listings X) db' = Ok (0%nat, db')).
  { apply (delete_absent db' X HX), delete_rows_absent. }
  exists db'. split; [by apply delete_ok|]. split.
  { simpl. by rewrite bind_int_ok. }
  split.
  { intros f. unfold db'. simpl. rewrite list_elem_of_filter.
    unfold matches. tauto. }
  split; [apply sublist_filter|]. split.
  { pose proof (filter_app_complement (matches X) (food_listings db)) as Hp.
    apply Permutation_length in Hp. rewrite length_app in Hp.
    unfold db', matches in *. simpl. lia. }
  by do 3 (split; [done|]).
Qed.

Lemma delete_removes_exactly_witness :
  ∃ db',
    delete_food_listing 2 sample_database = (Ok (), db')
    ∧ cursor_execute (DELETE_FROM_food_listings 2) sample_database
      = Ok (length (filter (λ f, FoodListing.food_id f = 2)
                      (food_listings sample_database)), db')
    ∧ (∀ f, f ∈ food_listings db' ↔
            f ∈ food_listings sample_database ∧ FoodListing.food_id f ≠ 2)
    ∧ food_listings db' `sublist_of` food_listings sample_database
    ∧ (length (food_listings db')
       + length (filter (λ f, FoodListing.food_id f = 2%Z)
                   (food_listings sample_database))
       = length (food_listings sample_database))%nat
    ∧ providers db' = providers sample_database
    ∧ receivers db' = receivers sample_database
    ∧ claims db' = claims sample_database
    ∧ cursor_execute (DELETE_FROM_food_listings 2) db' = Ok (0%nat, db').
Proof. apply (delete_removes_exactly sample_database 2). compute_done. Defined.

(** ** What a write leaves alone *)

Lemma bind_int_error (z : Z) e : bind_int z = Err e → e = OverflowError.
Proof. unfold bind_int. destruct (decide (in_int64 z)); congruence. Qed.

Lemma execute_sql_frame (s : statement) (db : database) :
  providers (execute_sql s db).2 = providers db
  ∧ receivers (execute_sql s db).2 = receivers db
  ∧ claims (execute_sql s db).2 = claims db
  ∧ (∀ e, (execute_sql s db).1 = Err e →
          e = OverflowError ∧ (execute_sql s db).2 = db).
Proof.
  unfold execute_sql.
  destruct (cursor_execute s db) as [[n db']|e] eqn:Hc; simpl.
  - assert (∃ l, db' = with_food_listings l db) as [l ->].
    { destruct s; simpl in Hc;
        repeat match type of Hc with
        | context [bind_int ?z] => destruct (bind_int z); simpl in Hc
        end; try done; injection Hc as <- <-; by eexists. }
    by repeat split.
  - do 3 (split; [done|]). intros e' [= <-]. split; [|done].
    destruct s; simpl in Hc;
      repeat match type of Hc with
      | context [bind_int ?z] =>
          destruct (bind_int z) eqn:?; simpl in Hc
      end; try done; injection Hc as <-; by eapply bind_int_error.
Qed.

(** ** The entries that sum *)

(** The summed rows of a grouped table: an error is the overflow of the SUM
    of one group, and else every group has its exact sum, never NULL. *)
Lemma collect_sums {A K} `{EqDecision K} (key : A → K) (col : A → Z)
    (rows : list A) :
  match collect (λ kg, s ← SUM (col <$> kg.2); Ok (kg.1, s))
          (group_by key rows) with
  | Ok out =>
      out = (λ kg, (kg.1, Some (sum_of (col <$> kg.2)))) <$> group_by key rows
  | Err e =>
      e = IntegerOverflow
      ∧ ∃ k, (∃ r, r ∈ rows ∧ key r = k)
          ∧ SUM (col <$> group key k rows) = Err IntegerOverflow
  end.
Proof.
  destruct (collect _ (group_by key rows)) as [out|e] eqn:Hc.
  - apply (collect_ok _ (λ kg, (kg.1, Some (sum_of (col <$> kg.2))))) in Hc;
      [done|].
    intros [k g] y Hkg. apply elem_of_group_by in Hkg as [-> Hex]. simpl.
    destruct (SUM _) as [s|e] eqn:Hs; [|done]. simpl. intros [= <-].
    apply SUM_ok in Hs as ->; [done|]. intros Hnil%fmap_nil_inv.
    by apply group_nonempty in Hex.
  - apply collect_err in Hc as ([k g] & Hkg & He).
    apply elem_of_group_by in Hkg as [-> Hex]. simpl in He.
    destruct (SUM _) as [s|e'] eqn:Hs; [done|]. simpl in He.
    injection He as ->. pose proof (SUM_err _ _ Hs) as ->.
    split; [done|]. by exists k.
Qed.

Lemma total_donated_sums (db : database) :
  match total_donated db with
  | Ok out =>
      out = order_by_desc_nullable snd
              ((λ kg, (kg.1, Some (sum_of ((λ fp, FoodListing.quantity fp.1)
                                             <$> kg.2))))
                 <$> group_by (λ fp, Provider.name fp.2)
                       (listings_providers db))
  | Err e =>
      e = IntegerOverflow
      ∧ ∃ n, (∃ fp, fp ∈ listings_providers db ∧ Provider.name fp.2 = n)
          ∧ SUM ((λ fp, FoodListing.quantity fp.1)
                   <$> group (λ fp, Provider.name fp.2) n
                         (listings_providers db))
            = Err IntegerOverflow
  end.
Proof.
  unfold total_donated.
  pose proof (collect_sums (λ fp : FoodListing.row * Provider.row,
                Provider.name fp.2) (λ fp, FoodListing.quantity fp.1)
                (listings_providers db)) as H.
  change (λ kg : string * list (FoodListing.row * Provider.row),
            s ← SUM ((λ fp, FoodListing.quantity fp.1) <$> kg.2);
            Ok (kg.1, s)) with sum_donated in H.
  destruct (collect sum_donated _) as [out|e]; simpl; [by subst out|done].
Qed.

(** ** When no catalog entry raises *)

Lemma catalog_keys :
  QUERIES.*1 =
    ["Providers & Receivers per City";
     "Provider type contributing most food";
     "Contact info of providers in a specific city ";
     "Receivers with most food claims";
     "Total quantity of food available";
     "City with highest number of food listings";
     "Most commonly available food types";
     "Number of claims made for each food item";
     "Provider with highest number of successful food claims";
     "Percentage of food claims completed vs pending vs canceled";
     "Average quantity of food claimed per receiver";
     "Most claimed meal type";
     "Total quantity of food donated by each provider"].
Proof. reflexivity. Qed.

Lemma filter_key_unique {A} (key : A → Z) (k : Z) (l : list A) :
  NoDup (key <$> l) → (length (filter (λ x, k = key x) l) ≤ 1)%nat.
Proof.
  induction l as [|x l IH]; [simpl; lia|]. rewrite fmap_cons, NoDup_cons.
  intros [Hx Hl]. destruct (decide (k = key x)) as [->|Hne].
  - rewrite filter_cons_True by done. rewrite filter_none; [simpl; lia|].
    intros y Hy Heq. apply Hx. rewrite Heq. apply list_elem_of_fmap.
    by exists y.
  - rewrite filter_cons_False by done. by apply IH.
Qed.

(** The rows a listing contributes to the join with its providers. *)
Lemma joined_provider_rows_sum (f : FoodListing.row) (ps : list Provider.row) :
  sum_of ((λ fp : FoodListing.row * Provider.row, FoodListing.quantity fp.1)
            <$> (p ← ps; [(f, p)]))
    = FoodListing.quantity f * Z.of_nat (length ps).
Proof.
  induction ps as [|p ps IH]; [simpl; unfold sum_of; simpl; lia|].
  rewrite bind_cons. change ([(f, p)] ++ ?l) with ((f, p) :: l).
  rewrite fmap_cons, sum_of_cons, IH, length_cons. simpl. lia.
Qed.

Lemma sum_of_app (l1 l2 : list Z) : sum_of (l1 ++ l2) = sum_of l1 + sum_of l2.
Proof.
  induction l1 as [|x l1 IH]; [done|].
  change ((x :: l1) ++ l2) with (x :: (l1 ++ l2)).
  rewrite !sum_of_cons, IH. lia.
Qed.

Lemma listings_providers_sum_le (db : database) :
  NoDup (Provider.provider_id <$> providers db) →
  Forall (λ f, 0 ≤ FoodListing.quantity f) (food_listings db) →
  Forall (λ fp, 0 ≤ FoodListing.quantity fp.1) (listings_providers db)
  ∧ sum_of ((λ fp, FoodListing.quantity fp.1) <$> listings_providers db)
    ≤ sum_of (FoodListing.quantity <$> food_listings db).
Proof.
  intros Hnd Hall. unfold listings_providers.
  induction Hall as [|f l Hf Hl [IH1 IH2]]; [done|].
  rewrite bind_cons. split.
  - apply Forall_app. split; [|done]. apply Forall_forall.
    intros fp (p & Hfp & _)%list_elem_of_bind.
    apply list_elem_of_ret in Hfp as ->. done.
  - rewrite fmap_app, sum_of_app, fmap_cons, sum_of_cons.
    rewrite joined_provider_rows_sum.
    pose proof (filter_key_unique Provider.provider_id
      (FoodListing.provider_id f) (providers db) Hnd) as Hone.
    nia.
Qed.

Lemma Forall_filter_keeps {A} (Q P : A → Prop) `{∀ x, Decision (P x)}
    (l : list A) :
  Forall Q l → Forall Q (filter P l).
Proof.
  rewrite !Forall_forall. intros Hl x Hx.
  apply Hl. by apply list_elem_of_filter in Hx as [_ Hx].
Qed.

(** X5: when no quantity is negative, the quantities together fit in 64
    bits and no two providers share an identifier, no entry of the catalog
    raises: each of the thirteen labels shows a table. *)
Theorem catalog_shows_a_table (db : database) (label : string) :
  Forall (λ f, 0 ≤ FoodListing.quantity f) (food_listings db) →
  sum_of (FoodListing.quantity <$> food_listings db) ≤ INT64_MAX →
  NoDup (Provider.provider_id <$> providers db) →
  label ∈ QUERIES.*1 →
  ∃ df, run_catalog_query label db = (Ok df, db)
        ∧ main (View_Analytics label true) db
          = (Ok [banner; subheader "Analytics Queries"; dataframe df], db).
Proof.
  intros Hall Hfit Hnd Hin.
  assert (Hmain : ∀ df, run_catalog_query label db = (Ok df, db) →
    main (View_Analytics label true) db
      = (Ok [banner; subheader "Analytics Queries"; dataframe df], db)).
  { intros df Hr. unfold main, bind, ret. by rewrite Hr. }
  rewrite catalog_keys in Hin.
  repeat (apply elem_of_cons in Hin as [->|Hin]);
    [..|by apply elem_of_nil in Hin].
  all: try (eexists; split; reflexivity).
  - pose proof (provider_type_most_food_top db) as Htop.
    assert (Hrun :
      run_catalog_query "Provider type contributing most food" db =
        (rows ← provider_type_most_food db;
         Ok (Frame ["provider_type"; "total_quantity"]
               (text_nullable <$> rows)), db)) by reflexivity.
    destruct (provider_type_most_food db) as [out|e]; simpl in Hrun.
    { eexists. split; [done|]. by apply Hmain. }
    destruct Htop as (-> & t & _ & Herr). exfalso.
    destruct (SUM_nonneg (FoodListing.quantity
                <$> group FoodListing.provider_type t (food_listings db)))
      as [s Hs]; [| |congruence].
    + apply Forall_fmap. unfold group. by apply Forall_filter_keeps.
    + pose proof (sum_of_filter_le FoodListing.quantity
        (λ f, FoodListing.provider_type f = t) (food_listings db) Hall).
      unfold group. lia.
  - assert (Hrun :
      run_catalog_query "Total quantity of food available" db =
        (s ← total_quantity db;
         Ok (Frame ["total_available_food"] [[nullable s]]), db))
      by reflexivity.
    destruct (SUM_nonneg (FoodListing.quantity <$> food_listings db))
      as [s Hs]; [by apply Forall_fmap|done|].
    unfold total_quantity in Hrun. rewrite Hs in Hrun. simpl in Hrun.
    eexists. split; [done|]. by apply Hmain.
  - pose proof (total_donated_sums db) as Hsums.
    assert (Hrun :
      run_catalog_query
        "Total quantity of food donated by each provider" db =
        (rows ← total_donated db;
         Ok (Frame ["name"; "total_donated"] (text_nullable <$> rows)), db))
      by reflexivity.
    destruct (total_donated db) as [out|e]; simpl in Hrun.
    { eexists. split; [done|]. by apply Hmain. }
    destruct Hsums as (-> & n & _ & Herr). exfalso.
    destruct (listings_providers_sum_le db Hnd Hall) as [Hjoin Hle].
    destruct (SUM_nonneg ((λ fp, FoodListing.quantity fp.1)
                <$> group (λ fp, Provider.name fp.2) n
                      (listings_providers db)))
      as [s Hs]; [| |congruence].
    + apply Forall_fmap. unfold group. by apply Forall_filter_keeps.
    + pose proof (sum_of_filter_le
        (λ fp : FoodListing.row * Provider.row, FoodListing.quantity fp.1)
        (λ fp, Provider.name fp.2 = n) (listings_providers db) Hjoin).
      unfold group. lia.
Qed.

Lemma catalog_shows_a_table_witness :
  ∃ df,
    run_catalog_query "Total quantity of food donated by each provider"
      sample_database = (Ok df, sample_database)
    ∧ main (View_Analytics
              "Total quantity of food donated by each provider" true)
        sample_database
      = (Ok [banner; subheader "Analytics Queries"; dataframe df],
         sample_database).
Proof.
  apply (catalog_shows_a_table sample_database
           "Total quantity of food donated by each provider");
    compute_done.
Defined.

(** ** Joins *)

Lemma elem_of_claims_receivers (db : database) c r :
  (c, r) ∈ claims_receivers db ↔
    c ∈ claims db ∧ r ∈ receivers db
    ∧ Claim.receiver_id c = Receiver.receiver_id r.
Proof.
  unfold claims_receivers. rewrite list_elem_of_bind. split.
  - intros (c' & Hin & Hc). apply list_elem_of_bind in Hin as (r' & Hin & Hr).
    apply list_elem_of_ret in Hin as [= -> ->].
    apply list_elem_of_filter in Hr as [Hid Hr]. done.
  - intros (Hc & Hr & Hid). exists c. split; [|done].
    apply list_elem_of_bind. exists r. split; [by apply list_elem_of_ret|].
    by apply list_elem_of_filter.
Qed.

Lemma elem_of_claims_listings (db : database) c f :
  (c, f) ∈ claims_listings db ↔
    c ∈ claims db ∧ f ∈ food_listings db
    ∧ Claim.food_id c = FoodListing.food_id f.
Proof.
  unfold claims_listings. rewrite list_elem_of_bind. split.
  - intros (c' & Hin & Hc). apply list_elem_of_bind in Hin as (f' & Hin & Hf).
    apply list_elem_of_ret in Hin as [= -> ->].
    apply list_elem_of_filter in Hf as [Hid Hf]. done.
  - intros (Hc & Hf & Hid). exists c. split; [|done].
    apply list_elem_of_bind. exists f. split; [by apply list_elem_of_ret|].
    by apply list_elem_of_filter.
Qed.

Lemma elem_of_listings_providers (db : database) f p :
  (f, p) ∈ listings_providers db ↔
    f ∈ food_listings db ∧ p ∈ providers db
    ∧ FoodListing.provider_id f = Provider.provider_id p.
Proof.
  unfold listings_providers. rewrite list_elem_of_bind. split.
  - intros (f' & Hin & Hf). apply list_elem_of_bind in Hin as (p' & Hin & Hp).
    apply list_elem_of_ret in Hin as [= -> ->].
    apply list_elem_of_filter in Hp as [Hid Hp]. done.
  - intros (Hf & Hp & Hid). exists f. split; [|done].
    apply list_elem_of_bind. exists p. split; [by apply list_elem_of_ret|].
    by apply list_elem_of_filter.
Qed.

Lemma sum_of_perm (l1 l2 : list Z) : l1 ≡ₚ l2 → sum_of l1 = sum_of l2.
Proof.
  induction 1 as [|x l1 l2 _ IH|x y l|l1 l2 l3 _ IH1 _ IH2];
    rewrite ?sum_of_cons; lia.
Qed.

(** The counts of a grouped count add up to the number of rows grouped,
    and none of them is 0. *)
Lemma count_rows_total {A K} `{EqDecision K} (key : A → K) (rows : list A) :
  sum_of (count_rows <$> group_by key rows).*2 = count rows.
Proof.
  rewrite <-(group_sizes key rows). f_equal.
  unfold group_by. by rewrite <-!list_fmap_compose.
Qed.

Lemma count_rows_positive {A K} `{EqDecision K} (key : A → K) rows k n :
  (k, n) ∈ count_rows <$> group_by key rows → 1 ≤ n.
Proof.
  intros [-> Hex]%elem_of_count_rows. apply (group_nonempty key) in Hex.
  unfold group in Hex. destruct (filter _ rows); [done|]. simpl. lia.
Qed.

Lemma length_paired {A B} (a : A) (m : list B) :
  length (b ← m; [(a, b)]) = length m.
Proof.
  induction m as [|b m IH]; [done|]. rewrite bind_cons. simpl. by rewrite IH.
Qed.

Lemma length_joined_le {A B} (P : A → B → Prop) `{∀ a b, Decision (P a b)}
    (l : list A) (m : list B) :
  (∀ a, length (filter (P a) m) ≤ 1)%nat →
  (length (a ← l; b ← filter (P a) m; [(a, b)]) ≤ length l)%nat.
Proof.
  intros Hone. induction l as [|a l IH]; [done|].
  rewrite bind_cons, length_app, length_paired. specialize (Hone a).
  simpl. lia.
Qed.

(** X6: "Receivers with most food claims" pairs every claim with the
    receivers of its receiver_id and groups the pairs by receiver name: one
    row per name that occurs in a pair (receivers that share a name share a
    row), with the number of pairs of that name, at least 1, the larger
    counts first.  The counts add up to the number of pairs, which is at
    most the number of claims when no two receivers share an identifier. *)
Theorem receivers_by_claims (db : database) :
  ∃ rows : list (string * Z),
    run_catalog_query "Receivers with most food claims" db
      = (Ok (Frame ["name"; "total_claims"]
               ((λ r, [VText r.1; VInt r.2]) <$> rows)), db)
    ∧ NoDup rows.*1
    ∧ (∀ n, n ∈ rows.*1 ↔
         ∃ c r, c ∈ claims db ∧ r ∈ receivers db
                ∧ Claim.receiver_id c = Receiver.receiver_id r
                ∧ Receiver.name r = n)
    ∧ (∀ n k, (n, k) ∈ rows →
         1 ≤ k
         ∧ k = Z.of_nat (length (filter (λ cr, Receiver.name cr.2 = n)
                                   (claims_receivers db))))
    ∧ (∀ c r, (c, r) ∈ claims_receivers db ↔
         c ∈ claims db ∧ r ∈ receivers db
         ∧ Claim.receiver_id c = Receiver.receiver_id r)
    ∧ sum_of rows.*2 = Z.of_nat (length (claims_receivers db))
    ∧ (NoDup (Receiver.receiver_id <$> receivers db) →
         sum_of rows.*2 ≤ Z.of_nat (length (claims db)))
    ∧ ∀ (i j : nat) a b,
        (i < j)%nat → rows !! i = Some a → rows !! j = Some b → b.2 ≤ a.2.
Proof.
  exists (receivers_most_claims db). split; [reflexivity|].
  unfold receivers_most_claims.
  destruct (ordered_count_rows (λ cr : Claim.row * Receiver.row,
              Receiver.name cr.2) (claims_receivers db))
    as (Hnd & Hkeys & Hcount).
  assert (Hsum : sum_of (order_by_desc snd (count_rows
              <$> group_by (λ cr : Claim.row * Receiver.row,
                    Receiver.name cr.2) (claims_receivers db))).*2
            = Z.of_nat (length (claims_receivers db))).
  { etransitivity;
      [|exact (count_rows_total (λ cr : Claim.row * Receiver.row,
                 Receiver.name cr.2) (claims_receivers db))].
    apply sum_of_perm. by rewrite order_by_desc_perm. }
  split; [done|]. split.
  { intros n. rewrite Hkeys. split.
    - intros ([c r] & Hcr & Hn). apply elem_of_claims_receivers in Hcr.
      exists c, r. tauto.
    - intros (c & r & Hc & Hr & Hid & Hn). exists (c, r).
      split; [|done]. by apply elem_of_claims_receivers. }
  split.
  { intros n k Hin. split; [|by apply Hcount].
    rewrite elem_of_order_by_desc in Hin.
    by apply count_rows_positive in Hin. }
  split; [apply elem_of_claims_receivers|]. split; [done|]. split.
  - intros Hids. rewrite Hsum. apply inj_le. unfold claims_receivers.
    apply (length_joined_le
      (λ c r, Claim.receiver_id c = Receiver.receiver_id r)).
    intros c. by apply filter_key_unique.
  - intros i j a b. apply order_by_desc_lookup.
Qed.

(** ** Claims per food item *)

Lemma main_keeps_other_tables (p : page) (db : database) :
  providers (main p db).2 = providers db
  ∧ receivers (main p db).2 = receivers db
  ∧ claims (main p db).2 = claims db.
Proof.
  assert (Hw : ∀ s out,
    let m := bind (execute_sql s) (λ _, ret out) : M (list element) in
    providers (m db).2 = providers db ∧ receivers (m db).2 = receivers db
    ∧ claims (m db).2 = claims db).
  { intros s out m. unfold m, bind, ret.
    destruct (execute_sql_frame s db) as (Hp & Hr & Hc & _).
    by destruct (execute_sql s db) as [[[]|e] db']. }
  destruct p as [label b|n q e pid pt loc ft mt b|i q b|i b]; destruct b;
    try done; try apply Hw.
  unfold main, bind, ret.
  pose proof (run_catalog_query_state label db) as Hst.
  destruct (run_catalog_query label db) as [[df|e] db']; simpl in *;
    by subst db'.
Qed.

(** X7: "Number of claims made for each food item" returns one row per
    food_id that a claim carries, with the number of claims that carry it,
    never 0; the counts add up to the number of claims.  The claims of a
    listing that is no longer stored are counted all the same: no run of
    the menu, whatever the page and its inputs, changes the result. *)
Theorem claims_per_food_item_counts (db : database) :
  ∃ rows : list (Z * Z),
    run_catalog_query "Number of claims made for each food item" db
      = (Ok (Frame ["food_id"; "total_claims"]
               ((λ r, [VInt r.1; VInt r.2]) <$> rows)), db)
    ∧ NoDup rows.*1
    ∧ (∀ i, i ∈ rows.*1 ↔ ∃ c, c ∈ claims db ∧ Claim.food_id c = i)
    ∧ (∀ i k, (i, k) ∈ rows →
         1 ≤ k
         ∧ k = Z.of_nat (length (filter (λ c, Claim.food_id c = i)
                                   (claims db))))
    ∧ sum_of rows.*2 = Z.of_nat (length (claims db))
    ∧ ∀ p, (run_catalog_query "Number of claims made for each food item"
              (main p db).2).1
           = (run_catalog_query "Number of claims made for each food item"
                db).1.
Proof.
  exists (claims_per_food_item db). split; [reflexivity|].
  unfold claims_per_food_item. split.
  { rewrite count_rows_keys. apply NoDup_remove_dups. }
  split.
  { intros i. rewrite count_rows_keys, elem_of_remove_dups, list_elem_of_fmap.
    split; intros (c & H1 & H2); exists c; by split. }
  split.
  { intros i k Hin. split; [by apply count_rows_positive in Hin|].
    by apply elem_of_count_rows in Hin as [-> _]. }
  split; [apply (count_rows_total Claim.food_id)|].
  intros p. destruct (main_keeps_other_tables p db) as (_ & _ & Hc).
  change (Ok (Frame ["food_id"; "total_claims"]
                ((λ r, [VInt r.1; VInt r.2])
                   <$> claims_per_food_item (main p db).2))
          = Ok (Frame ["food_id"; "total_claims"]
                  ((λ r, [VInt r.1; VInt r.2]) <$> claims_per_food_item db))).
  unfold claims_per_food_item. by rewrite Hc.
Qed.

(** X8: after the delete of a listing, the claims made on it are still
    stored, and "Number of claims made for each food item" still counts
    them; but the join of claims with their listings no longer has a row
    for them, so the queries built on that join leave them out.  The rows
    of the join for other listings are the rows it had. *)
Theorem delete_leaves_claims_dangling (db : database) (X : Z) :
  in_int64 X →
  ∃ db',
    delete_food_listing X db = (Ok (), db')
    ∧ claims db' = claims db
    ∧ claims_per_food_item db' = claims_per_food_item db
    ∧ (∀ c f, (c, f) ∈ claims_listings db' ↔
              (c, f) ∈ claims_listings db ∧ Claim.food_id c ≠ X)
    ∧ (∀ c, c ∈ claims db → Claim.food_id c = X →
            ∀ f, (c, f) ∉ claims_listings db')
    ∧ (∀ m, m ∈ (most_claimed_meal_type db').*1 →
            ∃ c f, c ∈ claims db ∧ f ∈ food_listings db
                   ∧ Claim.food_id c = FoodListing.food_id f
                   ∧ FoodListing.food_id f ≠ X
                   ∧ FoodListing.meal_type f = m).
Proof.
  intros HX. eexists. split; [by apply delete_ok|].
  set (db' := with_food_listings _ db).
  assert (Hjoin : ∀ c f, (c, f) ∈ claims_listings db' ↔
            (c, f) ∈ claims_listings db ∧ Claim.food_id c ≠ X).
  { intros c f. rewrite !elem_of_claims_listings. unfold db'. simpl.
    rewrite list_elem_of_filter. unfold matches.
    split; [intros (Hc & [Hne Hf] & Hid)|intros ((Hc & Hf & Hid) & Hne)];
      repeat split; try done; congruence. }
  split; [done|]. split; [done|]. split; [done|]. split.
  - intros c Hc Hid f [_ Hne]%Hjoin. done.
  - intros m Hm. unfold most_claimed_meal_type, limit_1 in Hm.
    apply list_elem_of_fmap in Hm as ([m' k] & -> & Hmk).
    apply elem_of_take in Hmk as (i & Hmk & _).
    apply list_elem_of_lookup_2, elem_of_order_by_desc in Hmk.
    apply elem_of_count_rows in Hmk as [_ ([c f] & Hcf & Hmeal)].
    apply Hjoin in Hcf as [Hcf Hne].
    apply elem_of_claims_listings in Hcf as (Hc & Hf & Hid).
    exists c, f. repeat split; try done. congruence.
Qed.

Lemma delete_leaves_claims_dangling_witness :
  ∃ db',
    delete_food_listing 1 sample_database = (Ok (), db')
    ∧ claims db' = claims sample_database
    ∧ claims_per_food_item db' = claims_per_food_item sample_database
    ∧ (∀ c f, (c, f) ∈ claims_listings db' ↔
              (c, f) ∈ claims_listings sample_database
              ∧ Claim.food_id c ≠ 1)
    ∧ (∀ c, c ∈ claims sample_database → Claim.food_id c = 1 →
            ∀ f, (c, f) ∉ claims_listings db')
    ∧ (∀ m, m ∈ (most_claimed_meal_type db').*1 →
            ∃ c f, c ∈ claims sample_database
                   ∧ f ∈ food_listings sample_database
                   ∧ Claim.food_id c = FoodListing.food_id f
                   ∧ FoodListing.food_id f ≠ 1
                   ∧ FoodListing.meal_type f = m).
Proof.
  apply (delete_leaves_claims_dangling sample_database 1). compute_done.
Defined.

(** ** Donations per provider and average claim *)

Lemma StronglySorted_lookup_rel {A} (R : relation A) (l : list A)
    (i j : nat) a b :
  StronglySorted R l → (i < j)%nat → l !! i = Some a → l !! j = Some b →
  R a b.
Proof.
  intros Hs. revert i j. induction Hs as [|x l Hs IH Hall]; intros i j Hij Hi Hj.
  - by rewrite lookup_nil in Hi.
  - destruct j as [|j]; [lia|]. simpl in Hj. destruct i as [|i].
    + injection Hi as <-. rewrite Forall_forall in Hall.
      apply (Hall b). by eapply list_elem_of_lookup_2.
    + simpl in Hi. apply (IH i j); [lia|done..].
Qed.

(** X9: "Total quantity of food donated by each provider" pairs every
    listing with the providers of its provider_id and groups the pairs by
    provider name.  It raises nothing but the engine's integer overflow;
    when it returns, there is one row per provider name that occurs in a
    pair, with the exact sum of the quantities of its pairs, never NULL,
    the larger sums first.  A listing whose provider_id no provider carries
    is in no pair. *)
Theorem donated_by_provider (db : database) :
  let joined := listings_providers db in
  (∀ f p, (f, p) ∈ joined ↔
       f ∈ food_listings db ∧ p ∈ providers db
       ∧ FoodListing.provider_id f = Provider.provider_id p)
  ∧ match (run_catalog_query
             "Total quantity of food donated by each provider" db).1 with
    | Ok df =>
        ∃ rows : list (string * Z),
          df = Frame ["name"; "total_donated"]
                 ((λ r, [VText r.1; VInt r.2]) <$> rows)
          ∧ NoDup rows.*1
          ∧ (∀ n, n ∈ rows.*1 ↔ ∃ fp, fp ∈ joined ∧ Provider.name fp.2 = n)
          ∧ (∀ n t, (n, t) ∈ rows →
               t = sum_of ((λ fp, FoodListing.quantity fp.1)
                             <$> filter (λ fp, Provider.name fp.2 = n) joined))
          ∧ ∀ (i j : nat) a b,
              (i < j)%nat → rows !! i = Some a → rows !! j = Some b →
              b.2 ≤ a.2
    | Err e => e = IntegerOverflow
    end.
Proof.
  intros joined. split; [apply elem_of_listings_providers|].
  assert (Hrun :
    (run_catalog_query
       "Total quantity of food donated by each provider" db).1 =
      (rows ← total_donated db;
       Ok (Frame ["name"; "total_donated"] (text_nullable <$> rows))))
    by reflexivity.
  rewrite Hrun. clear Hrun. pose proof (total_donated_sums db) as Hsums.
  destruct (total_donated db) as [out|e]; simpl; [|by destruct Hsums].
  set (key := λ fp : FoodListing.row * Provider.row, Provider.name fp.2)
    in *.
  set (w := λ g : list (FoodListing.row * Provider.row),
              sum_of ((λ fp, FoodListing.quantity fp.1) <$> g)) in *.
  set (sums := (λ kg : string * list (FoodListing.row * Provider.row),
                  (kg.1, w kg.2)) <$> group_by key joined).
  assert (Hout : out = order_by_desc_nullable snd
                         ((λ r : string * Z, (r.1, Some r.2)) <$> sums)).
  { rewrite Hsums. unfold sums. by rewrite <-list_fmap_compose. }
  assert (Hperm : out ≡ₚ (λ r : string * Z, (r.1, Some r.2)) <$> sums).
  { rewrite Hout. apply merge_sort_Permutation. }
  set (rows := (λ r : string * option Z, (r.1, default 0 r.2)) <$> out).
  assert (Hrows : rows ≡ₚ sums).
  { unfold rows. rewrite Hperm, <-list_fmap_compose.
    assert (Hid : ((λ r : string * option Z, (r.1, default 0 r.2))
                     ∘ (λ r : string * Z, (r.1, Some r.2))) <$> sums = sums).
    { rewrite <-(list_fmap_id sums) at 2. apply list_fmap_ext.
      by intros _ [n t] _. }
    by rewrite Hid. }
  assert (Hsome : ∀ r, r ∈ out → r.2 = Some (default 0 r.2)).
  { intros r Hr. rewrite Hperm in Hr.
    by apply list_elem_of_fmap in Hr as (r' & -> & _). }
  exists rows. split.
  { f_equal. unfold rows. rewrite <-list_fmap_compose.
    apply list_fmap_ext. intros i r Hr. unfold text_nullable. simpl.
    rewrite (Hsome r); [done|]. by eapply list_elem_of_lookup_2. }
  split.
  { rewrite Hrows. unfold sums.
    rewrite (aggregate_keys key w). apply NoDup_remove_dups. }
  split.
  { intros n. rewrite Hrows. unfold sums.
    rewrite (aggregate_keys key w), elem_of_remove_dups, list_elem_of_fmap.
    split; intros (fp & H1 & H2); exists fp; by split. }
  split.
  { intros n t Hin. rewrite Hrows in Hin.
    by apply (elem_of_aggregate key w) in Hin as [-> _]. }
  intros i j a b Hij Ha Hb. unfold rows in Ha, Hb.
  rewrite list_lookup_fmap in Ha, Hb.
  destruct (out !! i) as [a'|] eqn:Ha'; [|done].
  destruct (out !! j) as [b'|] eqn:Hb'; [|done].
  simpl in Ha, Hb. injection Ha as <-. injection Hb as <-.
  assert (Hs : StronglySorted (desc_nullable snd) out).
  { rewrite Hout. apply (StronglySorted_merge_sort _). }
  pose proof (StronglySorted_lookup_rel _ _ i j a' b' Hs Hij Ha' Hb') as Hle.
  unfold desc_nullable, null_le in Hle.
  rewrite (Hsome a'), (Hsome b') in Hle
    by by eapply list_elem_of_lookup_2.
  done.
Qed.

Lemma elem_of_claims_receivers_listings (db : database) c r f :
  (c, r, f) ∈ claims_receivers_listings db ↔
    c ∈ claims db ∧ r ∈ receivers db ∧ f ∈ food_listings db
    ∧ Claim.receiver_id c = Receiver.receiver_id r
    ∧ Claim.food_id c = FoodListing.food_id f.
Proof.
  unfold claims_receivers_listings. rewrite list_elem_of_bind. split.
  - intros ([c' r'] & Hin & Hcr).
    apply list_elem_of_bind in Hin as (f' & Hin & Hf).
    apply list_elem_of_ret in Hin as [= -> -> ->].
    apply list_elem_of_filter in Hf as [Hid Hf].
    apply elem_of_claims_receivers in Hcr. simpl in Hid. tauto.
  - intros (Hc & Hr & Hf & Hid1 & Hid2). exists (c, r).
    split; [|by apply elem_of_claims_receivers].
    apply list_elem_of_bind. exists f. split; [by apply list_elem_of_ret|].
    by apply list_elem_of_filter.
Qed.

(** X10: "Average quantity of food claimed per receiver" joins every claim
    with the receivers of its receiver_id and the listings of its food_id
    and groups the joined rows by receiver name, so a claim whose receiver
    or listing is not stored is in no row.  Each name that occurs has one
    row; its average is never NULL: it is the engine's average of the
    quantities of the joined rows of the name, of which there is at least
    one. *)
Theorem average_claim_quantity (db : database) :
  let joined := claims_receivers_listings db in
  ∃ rows : list (string * list Z),
    run_catalog_query "Average quantity of food claimed per receiver" db
      = (Ok (Frame ["name"; "avg_claim_quantity"]
               ((λ r, [VText r.1; VAverage r.2]) <$> rows)), db)
    ∧ (∀ c r f, (c, r, f) ∈ joined ↔
         c ∈ claims db ∧ r ∈ receivers db ∧ f ∈ food_listings db
         ∧ Claim.receiver_id c = Receiver.receiver_id r
         ∧ Claim.food_id c = FoodListing.food_id f)
    ∧ NoDup rows.*1
    ∧ (∀ n, n ∈ rows.*1 ↔ ∃ crf, crf ∈ joined ∧ Receiver.name crf.1.2 = n)
    ∧ ∀ n qs, (n, qs) ∈ rows →
        qs ≠ []
        ∧ qs = (λ crf, FoodListing.quantity crf.2)
                 <$> filter (λ crf, Receiver.name crf.1.2 = n) joined.
Proof.
  intros joined.
  set (key := λ crf : Claim.row * Receiver.row * FoodListing.row,
                Receiver.name crf.1.2).
  set (col := λ crf : Claim.row * Receiver.row * FoodListing.row,
                FoodListing.quantity crf.2).
  set (agg := λ g : list (Claim.row * Receiver.row * FoodListing.row),
                col <$> g).
  exists ((λ kg, (kg.1, agg kg.2)) <$> group_by key joined). split.
  { change (run_catalog_query
              "Average quantity of food claimed per receiver" db)
      with (Ok (Frame ["name"; "avg_claim_quantity"]
                  ((λ r, [VText r.1; r.2]) <$> avg_claim_quantity db)), db).
    do 3 f_equal. unfold avg_claim_quantity. rewrite <-!list_fmap_compose.
    apply list_fmap_ext. intros i [n g] Hg. simpl.
    apply list_elem_of_lookup_2, elem_of_group_by in Hg as [-> Hex].
    apply (group_nonempty key) in Hex. fold joined key.
    unfold agg, col. by destruct (group key n joined). }
  split; [apply elem_of_claims_receivers_listings|]. split.
  { rewrite (aggregate_keys key agg). apply NoDup_remove_dups. }
  split.
  { intros n.
    rewrite (aggregate_keys key agg), elem_of_remove_dups, list_elem_of_fmap.
    split; intros (crf & H1 & H2); exists crf; by split. }
  intros n qs Hin.
  apply (elem_of_aggregate key agg) in Hin as [-> Hex].
  apply (group_nonempty key) in Hex. split; [|done].
  unfold agg. by intros Hnil%fmap_nil_inv.
Qed.

(** ** A write, then the total *)

Lemma SUM_exact (l : list Z) :
  Forall (λ x, 0 ≤ x) l → sum_of l ≤ INT64_MAX →
  SUM l = Ok (match l with [] => None | _ => Some (sum_of l) end).
Proof.
  intros Hl Hfit. destruct l as [|x l]; [done|]. unfold SUM.
  by rewrite sum_from_nonneg.
Qed.

Lemma sum_of_filter_split {A} (col : A → Z) (P : A → Prop)
    `{∀ x, Decision (P x)} (l : list A) :
  sum_of (col <$> filter (λ x, ¬ P x) l)
    = sum_of (col <$> l) - sum_of (col <$> filter P l).
Proof.
  induction l as [|x l IH]; [done|]. rewrite !filter_cons.
  destruct (decide (P x)) as [HP|HP].
  - rewrite decide_False by tauto. rewrite !fmap_cons, !sum_of_cons. lia.
  - rewrite decide_True by done. rewrite !fmap_cons, !sum_of_cons. lia.
Qed.

Lemma sum_of_updated (i q : Z) (l : list FoodListing.row) :
  sum_of (FoodListing.quantity
            <$> ((λ f, if decide (matches i f)
                       then FoodListing.set_quantity q f else f) <$> l))
    = sum_of (FoodListing.quantity <$> l)
      - sum_of (FoodListing.quantity <$> filter (matches i) l)
      + q * Z.of_nat (length (filter (matches i) l)).
Proof.
  induction l as [|f l IH]; [simpl; unfold sum_of; simpl; lia|].
  rewrite !fmap_cons, filter_cons.
  destruct (decide (matches i f)).
  - rewrite fmap_cons, length_cons, !sum_of_cons. simpl. lia.
  - rewrite !sum_of_cons. lia.
Qed.

Lemma updated_nonneg (i q : Z) (l : list FoodListing.row) :
  0 ≤ q → Forall (λ f, 0 ≤ FoodListing.quantity f) l →
  Forall (λ x, 0 ≤ x)
    (FoodListing.quantity
       <$> ((λ f, if decide (matches i f)
                  then FoodListing.set_quantity q f else f) <$> l)).
Proof.
  intros Hq Hl. rewrite <-list_fmap_compose. apply Forall_fmap.
  eapply Forall_impl; [exact Hl|]. intros f Hf. simpl.
  by destruct (decide (matches i f)).
Qed.

(** X11: when no quantity is negative and the quantities together fit in
    64 bits, the delete of a listing lowers "Total quantity of food
    available" by the quantities of the listings removed; but when it
    removes the last listing the total is NULL, not 0. *)
Theorem delete_then_total (db : database) (X : Z) :
  in_int64 X →
  Forall (λ f, 0 ≤ FoodListing.quantity f) (food_listings db) →
  sum_of (FoodListing.quantity <$> food_listings db) ≤ INT64_MAX →
  let shows v := Ok (Frame ["total_available_food"] [[v]]) in
  let removed :=
    sum_of (FoodListing.quantity
              <$> filter (λ f, FoodListing.food_id f = X)
                    (food_listings db)) in
  ∃ db',
    delete_food_listing X db = (Ok (), db')
    ∧ (food_listings db ≠ [] →
         run_catalog_query "Total quantity of food available" db
           = (shows (VInt (sum_of (FoodListing.quantity
                                     <$> food_listings db))), db))
    ∧ (food_listings db' ≠ [] →
         run_catalog_query "Total quantity of food available" db'
           = (shows (VInt (sum_of (FoodListing.quantity <$> food_listings db)
                           - removed)), db'))
    ∧ (food_listings db' = [] →
         run_catalog_query "Total quantity of food available" db'
           = (shows VNull, db')).
Proof.
  intros HX Hall Hfit shows removed. eexists.
  split; [by apply delete_ok|].
  set (l' := filter (λ f, ¬ matches X f) (food_listings db)).
  assert (Hsum : sum_of (FoodListing.quantity <$> l')
            = sum_of (FoodListing.quantity <$> food_listings db) - removed).
  { apply (sum_of_filter_split FoodListing.quantity (matches X)). }
  assert (Hrem : 0 ≤ removed).
  { apply sum_of_nonneg, Forall_fmap. by apply Forall_filter_keeps. }
  assert (Hall' : Forall (λ x, 0 ≤ x) (FoodListing.quantity <$> l')).
  { apply Forall_fmap. by apply Forall_filter_keeps. }
  rewrite !total_query_runs. unfold total_quantity. simpl. fold l'.
  rewrite (SUM_exact (FoodListing.quantity <$> food_listings db))
    by (by try apply Forall_fmap).
  rewrite (SUM_exact (FoodListing.quantity <$> l')) by (done || lia).
  rewrite Hsum. split; [|split].
  - intros Hne. by destruct (food_listings db).
  - intros Hne. destruct l'; [done|]. by rewrite <-Hsum.
  - by intros ->.
Qed.

Lemma delete_then_total_witness :
  let shows v := Ok (Frame ["total_available_food"] [[v]]) in
  let removed :=
    sum_of (FoodListing.quantity
              <$> filter (λ f, FoodListing.food_id f = 1)
                    (food_listings sample_database)) in
  ∃ db',
    delete_food_listing 1 sample_database = (Ok (), db')
    ∧ (food_listings sample_database ≠ [] →
         run_catalog_query "Total quantity of food available"
           sample_database
           = (shows (VInt (sum_of (FoodListing.quantity
                                     <$> food_listings sample_database))),
              sample_database))
    ∧ (food_listings db' ≠ [] →
         run_catalog_query "Total quantity of food available" db'
           = (shows (VInt (sum_of (FoodListing.quantity
                                     <$> food_listings sample_database)
                           - removed)), db'))
    ∧ (food_listings db' = [] →
         run_catalog_query "Total quantity of food available" db'
           = (shows VNull, db')).
Proof. apply (delete_then_total sample_database 1); compute_done. Defined.

(** X12: when no quantity is negative, an update of the listings [X] to a
    quantity [q] that is not negative moves "Total quantity of food
    available" to the old exact sum, less the old quantities of the
    listings [X], plus [q] for each of them, provided that fits in 64
    bits. *)
Theorem update_then_total (db : database) (X q : Z) :
  in_int64 X → in_int64 q → 0 ≤ q →
  Forall (λ f, 0 ≤ FoodListing.quantity f) (food_listings db) →
  food_listings db ≠ [] →
  let hit := filter (λ f, FoodListing.food_id f = X) (food_listings db) in
  let after :=
    sum_of (FoodListing.quantity <$> food_listings db)
    - sum_of (FoodListing.quantity <$> hit)
    + q * Z.of_nat (length hit) in
  after ≤ INT64_MAX →
  ∃ db',
    update_food_listing_quantity X q db = (Ok (), db')
    ∧ run_catalog_query "Total quantity of food available" db'
      = (Ok (Frame ["total_available_food"] [[VInt after]]), db').
Proof.
  intros HX Hq Hq0 Hall Hne hit after Hfit. eexists.
  split; [by apply update_ok|].
  rewrite total_query_runs. unfold total_quantity. simpl.
  rewrite SUM_exact.
  - rewrite sum_of_updated. fold hit after.
    destruct (food_listings db); [done|]. by rewrite !fmap_cons.
  - by apply updated_nonneg.
  - by rewrite sum_of_updated.
Qed.

Lemma update_then_total_witness :
  let hit :=
    filter (λ f, FoodListing.food_id f = 2) (food_listings sample_database) in
  let after :=
    sum_of (FoodListing.quantity <$> food_listings sample_database)
    - sum_of (FoodListing.quantity <$> hit)
    + 9 * Z.of_nat (length hit) in
  ∃ db',
    update_food_listing_quantity 2 9 sample_database = (Ok (), db')
    ∧ run_catalog_query "Total quantity of food available" db'
      = (Ok (Frame ["total_available_food"] [[VInt after]]), db').
Proof.
  apply (update_then_total sample_database 2 9); compute_done.
Defined.

(** ** Insert *)

Lemma elem_of_most_common_food_types (db : database) t k :
  (t, k) ∈ most_common_food_types db ↔
    k = Z.of_nat (length (filter (λ f, FoodListing.food_type f = t)
                            (food_listings db)))
    ∧ ∃ f, f ∈ food_listings db ∧ FoodListing.food_type f = t.
Proof.
  unfold most_common_food_types.
  rewrite elem_of_order_by_desc. apply elem_of_count_rows.
Qed.

(** X13: the insert of a listing whose quantity and provider are 64-bit
    integers returns normally, whether or not a provider carries that
    identifier.  It changes one row: the listings stored before are kept as
    they were, in their order, and one listing follows them that carries
    the eight values given; the other tables are as before.  In "Most
    commonly available food types" the count of the food type inserted is
    one more than the number of its listings before, and every other row is
    as it was.  The page shows its success message. *)
Theorem add_appends_one_listing (db : database)
    (n : string) (q : Z) (e : string) (p : Z) (pt loc ft mt : string) :
  in_int64 q → in_int64 p →
  ∃ db' new,
    add_food_listing n q e p pt loc ft mt db = (Ok (), db')
    ∧ cursor_execute (INSERT_INTO_food_listings n q e p pt loc ft mt) db
      = Ok (1%nat, db')
    ∧ food_listings db' = food_listings db ++ [new]
    ∧ FoodListing.food_name new = n ∧ FoodListing.quantity new = q
    ∧ FoodListing.expiry_date new = e ∧ FoodListing.provider_id new = p
    ∧ FoodListing.provider_type new = pt ∧ FoodListing.location new = loc
    ∧ FoodListing.food_type new = ft ∧ FoodListing.meal_type new = mt
    ∧ providers db' = providers db
    ∧ receivers db' = receivers db
    ∧ claims db' = claims db
    ∧ (∀ t k, (t, k) ∈ most_common_food_types db' ↔
         (t = ft
          ∧ k = 1 + Z.of_nat (length (filter
                    (λ f, FoodListing.food_type f = ft) (food_listings db))))
         ∨ (t ≠ ft ∧ (t, k) ∈ most_common_food_types db))
    ∧ main (Add_Food_Listing n q e p pt loc ft mt true) db
      = (Ok [banner; subheader "Add New Food Listing";
             success "Food listing added successfully!"], db').
Proof.
  intros Hq Hp.
  set (new := FoodListing.mk (fresh_food_id (food_listings db))
                n q e p pt loc ft mt).
  set (db' := with_food_listings (food_listings db ++ [new]) db).
  assert (Hexec :
    cursor_execute (INSERT_INTO_food_listings n q e p pt loc ft mt) db
      = Ok (1%nat, db')).
  { simpl. by rewrite !bind_int_ok. }
  assert (Hadd : add_food_listing n q e p pt loc ft mt db = (Ok (), db')).
  { unfold add_food_listing, execute_sql. by rewrite Hexec. }
  exists db', new. do 14 (split; [done|]). split.
  - intros t k. rewrite !elem_of_most_common_food_types.
    unfold db'. simpl. rewrite filter_app, length_app.
    destruct (decide (t = ft)) as [->|Hne].
    + rewrite (filter_cons_True _ new) by done. simpl. split.
      * intros [-> _]. left. split; [done|]. lia.
      * intros [[_ ->]|[Hne _]]; [|done]. split; [lia|].
        exists new. split; [|done]. apply elem_of_app. right. left.
    + rewrite (filter_cons_False _ new) by (simpl; congruence). simpl. split.
      * intros [-> (f & Hf & Hft)]. right. split; [done|]. split; [lia|].
        exists f. split; [|done].
        apply elem_of_app in Hf as [Hf|Hf]; [done|].
        apply list_elem_of_singleton in Hf as ->. simpl in Hft. congruence.
      * intros [[Heq _]|[_ [-> (f & Hf & Hft)]]]; [done|]. split; [lia|].
        exists f. split; [|done]. apply elem_of_app. by left.
  - unfold main, bind, ret. by rewrite Hadd.
Qed.

Lemma add_appends_one_listing_witness :
  ∃ db' new,
    add_food_listing "Rice" 10 "2025-01-01" 7 "Restaurant" "Downtown"
      "Vegetarian" "Lunch" sample_database = (Ok (), db')
    ∧ cursor_execute
        (INSERT_INTO_food_listings "Rice" 10 "2025-01-01" 7 "Restaurant"
           "Downtown" "Vegetarian" "Lunch") sample_database
      = Ok (1%nat, db')
    ∧ food_listings db' = food_listings sample_database ++ [new]
    ∧ FoodListing.food_name new = "Rice" ∧ FoodListing.quantity new = 10
    ∧ FoodListing.expiry_date new = "2025-01-01"
    ∧ FoodListing.provider_id new = 7
    ∧ FoodListing.provider_type new = "Restaurant"
    ∧ FoodListing.location new = "Downtown"
    ∧ FoodListing.food_type new = "Vegetarian"
    ∧ FoodListing.meal_type new = "Lunch"
    ∧ providers db' = providers sample_database
    ∧ receivers db' = receivers sample_database
    ∧ claims db' = claims sample_database
    ∧ (∀ t k, (t, k) ∈ most_common_food_types db' ↔
         (t = "Vegetarian"
          ∧ k = 1 + Z.of_nat (length (filter
                    (λ f, FoodListing.food_type f = "Vegetarian")
                    (food_listings sample_database))))
         ∨ (t ≠ "Vegetarian"
            ∧ (t, k) ∈ most_common_food_types sample_database))
    ∧ main (Add_Food_Listing "Rice" 10 "2025-01-01" 7 "Restaurant"
              "Downtown" "Vegetarian" "Lunch" true) sample_database
      = (Ok [banner; subheader "Add New Food Listing";
             success "Food listing added successfully!"], db').
Proof.
  apply (add_appends_one_listing sample_database "Rice" 10 "2025-01-01" 7
           "Restaurant" "Downtown" "Vegetarian" "Lunch"); compute_done.
Defined.

(** ** An update and the queries that do not read the quantity *)

Lemma filter_fmap_same {A} (P : A → Prop) `{∀ x, Decision (P x)}
    (g : A → A) (l : list A) :
  (∀ x, P (g x) ↔ P x) → filter P (g <$> l) = g <$> filter P l.
Proof.
  intros Hg. induction l as [|x l IH]; [done|].
  rewrite fmap_cons, !filter_cons, IH.
  destruct (decide (P x)) as [HP|HP].
  - by rewrite decide_True by by apply Hg.
  - by rewrite decide_False by by rewrite Hg.
Qed.

(** A change of the rows that keeps their keys keeps a grouped count. *)
Lemma count_rows_fmap_same {A K} `{EqDecision K} (key : A → K) (g : A → A)
    (rows : list A) :
  (∀ r, key (g r) = key r) →
  count_rows <$> group_by key (g <$> rows)
    = count_rows <$> group_by key rows.
Proof.
  intros Hg. unfold group_by.
  assert (Hkeys : key <$> (g <$> rows) = key <$> rows).
  { rewrite <-list_fmap_compose. apply list_fmap_ext. intros _ r _. apply Hg. }
  rewrite Hkeys, <-!list_fmap_compose. apply list_fmap_ext. intros _ k _.
  unfold count_rows, count, group. simpl. f_equal. f_equal.
  rewrite (filter_fmap_same (λ r, key r = k) g).
  - apply length_fmap.
  - intros r. by rewrite Hg.
Qed.

Section update_and_joins.
Context (db : database) (i q : Z).

Let upd : FoodListing.row → FoodListing.row :=
  λ f, if decide (matches i f) then FoodListing.set_quantity q f else f.
Let db' : database := with_food_listings (upd <$> food_listings db) db.

Lemma upd_food_id f : FoodListing.food_id (upd f) = FoodListing.food_id f.
Proof. unfold upd. by destruct (decide (matches i f)). Qed.

Lemma upd_provider_id f :
  FoodListing.provider_id (upd f) = FoodListing.provider_id f.
Proof. unfold upd. by destruct (decide (matches i f)). Qed.

Lemma upd_location f : FoodListing.location (upd f) = FoodListing.location f.
Proof. unfold upd. by destruct (decide (matches i f)). Qed.

Lemma upd_food_type f :
  FoodListing.food_type (upd f) = FoodListing.food_type f.
Proof. unfold upd. by destruct (decide (matches i f)). Qed.

Lemma upd_meal_type f :
  FoodListing.meal_type (upd f) = FoodListing.meal_type f.
Proof. unfold upd. by destruct (decide (matches i f)). Qed.

Lemma paired_fmap {C} (c : C) (m : list FoodListing.row) :
  (f ← upd <$> m; [(c, f)])
    = (λ cf : C * FoodListing.row, (cf.1, upd cf.2)) <$> (f ← m; [(c, f)]).
Proof.
  induction m as [|f m IH]; [done|].
  rewrite fmap_cons, !bind_cons, fmap_app, IH. done.
Qed.

Lemma claims_listings_updated :
  claims_listings db'
    = (λ cf, (cf.1, upd cf.2)) <$> claims_listings db.
Proof.
  unfold claims_listings, db'. simpl.
  induction (claims db) as [|c cs IH]; [done|].
  rewrite !bind_cons, fmap_app, IH. f_equal.
  rewrite (filter_fmap_same
    (λ f, Claim.food_id c = FoodListing.food_id f) upd).
  - apply paired_fmap.
  - intros f. by rewrite upd_food_id.
Qed.

Lemma completed_claims_updated :
  completed_claims db'
    = (λ cfp, (cfp.1.1, upd cfp.1.2, cfp.2)) <$> completed_claims db.
Proof.
  unfold completed_claims. rewrite claims_listings_updated.
  change (providers db') with (providers db).
  rewrite <-(filter_fmap_same
    (λ cfp : Claim.row * FoodListing.row * Provider.row,
       Claim.status cfp.1.1 = "Completed")
    (λ cfp, (cfp.1.1, upd cfp.1.2, cfp.2))) by done.
  f_equal. induction (claims_listings db) as [|[c f] l IH]; [done|].
  rewrite fmap_cons, !bind_cons, fmap_app, IH. f_equal. simpl.
  rewrite upd_provider_id.
  induction (filter _ (providers db)) as [|p ps IHp]; [done|].
  rewrite !bind_cons, fmap_app, IHp. done.
Qed.
End update_and_joins.

(** X14: an update of a quantity changes the result of no catalog entry
    but the four that read the quantity (the two totals, the top provider
    type and the average): the nine other entries return, after the update,
    the table they returned before it. *)
Theorem update_keeps_other_queries (db : database) (X q : Z)
    (label : string) :
  in_int64 X → in_int64 q →
  label ∈ ["Providers & Receivers per City";
           "Contact info of providers in a specific city ";
           "Receivers with most food claims";
           "City with highest number of food listings";
           "Most commonly available food types";
           "Number of claims made for each food item";
           "Provider with highest number of successful food claims";
           "Percentage of food claims completed vs pending vs canceled";
           "Most claimed meal type"] →
  ∃ db',
    update_food_listing_quantity X q db = (Ok (), db')
    ∧ (run_catalog_query label db').1 = (run_catalog_query label db).1.
Proof.
  intros HX Hq Hin. eexists. split; [by apply update_ok|].
  set (upd := λ f, if decide (matches X f)
                   then FoodListing.set_quantity q f else f).
  set (db' := with_food_listings (upd <$> food_listings db) db).
  repeat (apply elem_of_cons in Hin as [->|Hin]);
    [..|by apply elem_of_nil in Hin]; try reflexivity.
  - change (Ok (Frame ["location"; "total_listings"]
                  (text_int <$> city_most_listings db'))
            = Ok (Frame ["location"; "total_listings"]
                    (text_int <$> city_most_listings db))).
    unfold city_most_listings, db'. simpl.
    rewrite (count_rows_fmap_same FoodListing.location upd); [done|].
    apply upd_location.
  - change (Ok (Frame ["food_type"; "count"]
                  (text_int <$> most_common_food_types db'))
            = Ok (Frame ["food_type"; "count"]
                    (text_int <$> most_common_food_types db))).
    unfold most_common_food_types, db'. simpl.
    rewrite (count_rows_fmap_same FoodListing.food_type upd); [done|].
    apply upd_food_type.
  - change (Ok (Frame ["name"; "completed_claims"]
                  (text_int <$> provider_most_completed_claims db'))
            = Ok (Frame ["name"; "completed_claims"]
                    (text_int <$> provider_most_completed_claims db))).
    unfold provider_most_completed_claims, db', upd.
    rewrite completed_claims_updated.
    by rewrite (count_rows_fmap_same
      (λ cfp : Claim.row * FoodListing.row * Provider.row,
         Provider.name cfp.2)).
  - change (Ok (Frame ["meal_type"; "total_claims"]
                  (text_int <$> most_claimed_meal_type db'))
            = Ok (Frame ["meal_type"; "total_claims"]
                    (text_int <$> most_claimed_meal_type db))).
    unfold most_claimed_meal_type, db', upd.
    rewrite claims_listings_updated.
    rewrite (count_rows_fmap_same
      (λ cf : Claim.row * FoodListing.row, FoodListing.meal_type cf.2));
      [done|].
    intros [c f]. apply upd_meal_type.
Qed.

Lemma update_keeps_other_queries_witness :
  ∃ db',
    update_food_listing_quantity 1 99 sample_database = (Ok (), db')
    ∧ (run_catalog_query "Most claimed meal type" db').1
      = (run_catalog_query "Most claimed meal type" sample_database).1.
Proof.
  apply (update_keeps_other_queries sample_database 1 99
           "Most claimed meal type"); compute_done.
Defined.

(** ** The total, the success messages and the completed claims *)

(** X15: "Total quantity of food available" always returns one row of one
    cell, or raises the engine's integer overflow and nothing else.  The
    cell is NULL exactly when no listing is stored, and else it is the
    exact sum of the stored quantities, negative ones included. *)
Theorem total_quantity_exact (db : database) :
  match (run_catalog_query "Total quantity of food available" db).1 with
  | Ok df =>
      (food_listings db = []
       ∧ df = Frame ["total_available_food"] [[VNull]])
      ∨ (food_listings db ≠ []
         ∧ df = Frame ["total_available_food"]
                  [[VInt (sum_of (FoodListing.quantity
                                    <$> food_listings db))]])
  | Err e => e = IntegerOverflow
  end.
Proof.
  rewrite total_query_runs. unfold total_quantity. simpl.
  destruct (SUM _) as [s|e] eqn:Hs; simpl; [|by apply SUM_err in Hs].
  destruct (food_listings db) as [|f l]; [left; by injection Hs as <-|].
  right. split; [done|]. by apply SUM_ok in Hs as ->.
Qed.

(** X16: with 64-bit inputs, each of the three write pages shows its
    success message once its button is pressed, whatever the database:
    the update and the delete do so whether a listing carries the
    identifier or not, and the insert whether a provider carries the
    identifier or not. *)
Theorem write_pages_always_report_success (db : database)
    (i q p : Z) (n e pt loc ft mt : string) :
  in_int64 i → in_int64 q → in_int64 p →
  (main (Update_Food_Listing i q true) db).1
    = Ok [banner; subheader "Update Food Listing Quantity";
          success "Food listing quantity updated successfully!"]
  ∧ (main (Delete_Food_Listing i true) db).1
    = Ok [banner; subheader "Delete Food Listing";
          success "Food listing deleted successfully!"]
  ∧ (main (Add_Food_Listing n q e p pt loc ft mt true) db).1
    = Ok [banner; subheader "Add New Food Listing";
          success "Food listing added successfully!"].
Proof.
  intros Hi Hq Hp. split; [|split].
  - unfold main, bind, ret. by rewrite update_ok.
  - unfold main, bind, ret. by rewrite delete_ok.
  - unfold main, bind, ret, add_food_listing, execute_sql. simpl.
    by rewrite !bind_int_ok.
Qed.

Lemma write_pages_always_report_success_witness :
  (main (Update_Food_Listing 9 5 true) sample_database).1
    = Ok [banner; subheader "Update Food Listing Quantity";
          success "Food listing quantity updated successfully!"]
  ∧ (main (Delete_Food_Listing 9 true) sample_database).1
    = Ok [banner; subheader "Delete Food Listing";
          success "Food listing deleted successfully!"]
  ∧ (main (Add_Food_Listing "Rice" 5 "2025-01-01" 7 "Restaurant"
             "Downtown" "Vegetarian" "Lunch" true) sample_database).1
    = Ok [banner; subheader "Add New Food Listing";
          success "Food listing added successfully!"].
Proof.
  apply (write_pages_always_report_success sample_database 9 5 7);
    compute_done.
Defined.

Lemma elem_of_completed_claims (db : database) c f p :
  (c, f, p) ∈ completed_claims db ↔
    c ∈ claims db ∧ f ∈ food_listings db ∧ p ∈ providers db
    ∧ Claim.food_id c = FoodListing.food_id f
    ∧ FoodListing.provider_id f = Provider.provider_id p
    ∧ Claim.status c = "Completed".
Proof.
  unfold completed_claims.
  rewrite list_elem_of_filter, list_elem_of_bind. simpl. split.
  - intros (Hst & [c' f'] & Hin & Hcf).
    apply list_elem_of_bind in Hin as (p' & Hin & Hp).
    apply list_elem_of_ret in Hin as [= -> -> ->].
    apply list_elem_of_filter in Hp as [Hid Hp].
    apply elem_of_claims_listings in Hcf. simpl in Hid. tauto.
  - intros (Hc & Hf & Hp & Hid1 & Hid2 & Hst). split; [done|].
    exists (c, f). split; [|by apply elem_of_claims_listings].
    apply list_elem_of_bind. exists p. split; [by apply list_elem_of_ret|].
    by apply list_elem_of_filter.
Qed.

(** X17: "Provider with highest number of successful food claims" counts
    a claim only with the status 'Completed', spelled so, and only when a
    stored listing carries its food_id and a provider carries the provider
    of that listing.  A name it returns is the name of such a provider, and
    its count is at least 1; when no claim meets the three conditions it
    returns no row. *)
Theorem completed_claims_only (db : database) :
  (∀ c f p, (c, f, p) ∈ completed_claims db ↔
     c ∈ claims db ∧ f ∈ food_listings db ∧ p ∈ providers db
     ∧ Claim.food_id c = FoodListing.food_id f
     ∧ FoodListing.provider_id f = Provider.provider_id p
     ∧ Claim.status c = "Completed")
  ∧ (∀ n k, (n, k) ∈ provider_most_completed_claims db →
       1 ≤ k
       ∧ ∃ c f p, (c, f, p) ∈ completed_claims db ∧ Provider.name p = n)
  ∧ ((∀ c f p, c ∈ claims db → f ∈ food_listings db → p ∈ providers db →
        Claim.food_id c = FoodListing.food_id f →
        FoodListing.provider_id f = Provider.provider_id p →
        Claim.status c ≠ "Completed") →
     run_catalog_query
       "Provider with highest number of successful food claims" db
     = (Ok (Frame ["name"; "completed_claims"] []), db)).
Proof.
  split; [apply elem_of_completed_claims|]. split.
  - intros n k Hin. unfold provider_most_completed_claims, limit_1 in Hin.
    apply elem_of_take in Hin as (i & Hin & _).
    apply list_elem_of_lookup_2, elem_of_order_by_desc in Hin.
    split; [by apply count_rows_positive in Hin|].
    apply elem_of_count_rows in Hin as [_ ([[c f] p] & Hcfp & Hn)].
    by exists c, f, p.
  - intros Hnone.
    assert (Hnil : completed_claims db = []).
    { destruct (completed_claims db) as [|[[c f] p] l] eqn:Hcc; [done|].
      assert (Hin : (c, f, p) ∈ completed_claims db) by (rewrite Hcc; left).
      apply elem_of_completed_claims in Hin
        as (Hc & Hf & Hp & Hid1 & Hid2 & Hst).
      by destruct (Hnone c f p). }
    change (run_catalog_query
              "Provider with highest number of successful food claims" db)
      with (Ok (Frame ["name"; "completed_claims"]
                  (text_int <$> provider_most_completed_claims db)), db).
    unfold provider_most_completed_claims. by rewrite Hnil.
Qed.
